(** * Carla-RL/setup.py: the retrying bootstrap of the CARLA simulator

    A shallow embedding of [setup] (Carla-RL/setup.py) and of the fragments
    of the Python runtime it drives: the [atexit] registry, [os.environ]
    and its [copy()], [subprocess.Popen], [os.kill]/[os.killpg],
    [sys.exit], int-to-float true division, the CARLA client calls with
    the [carla.WorldSettings] constructor, and the assignment words that
    [/bin/sh] reads at the head of a command line.

    Everything the function does to the outside is recorded, in order, in a
    trace of events; what the outside answers (whether a spawn or a client
    call raises, which pid or frame id comes back) is read from a [world]. *)

From Stdlib Require Import ZArith Floats Ascii.
From stdpp Require Import gmap strings list pretty.

(** ** Python values and exceptions *)

(** The exception classes that can cross [setup].  [RuntimeError] stands
    for the class and everything derived from it, which is what
    [except RuntimeError] catches; [OtherError] is any class outside it. *)
Inductive exn :=
| AssertionError
| RuntimeError (msg : string)
| TypeError (msg : string)
| OSError (msg : string)
| ZeroDivisionError
| OverflowError
| NameError
| SystemExit (code : option Z)
| OtherError (cls msg : string).

Definition is_RuntimeError (e : exn) : bool :=
  match e with RuntimeError _ => true | _ => false end.

(** [str(e)] for the exception logged at line 94. *)
Definition exn_str (e : exn) : string :=
  match e with
  | RuntimeError m | TypeError m | OSError m | OtherError _ m => m
  | _ => ""
  end.

(** Exit status of the interpreter when [e] reaches the top level:
    [sys.exit()] and [sys.exit(None)] give status 0, [sys.exit(c)] gives
    [c], any other uncaught exception gives 1. *)
Definition exit_status (e : exn) : Z :=
  match e with
  | SystemExit None => 0
  | SystemExit (Some c) => c
  | _ => 1
  end.

Definition SIGKILL : Z := 9.
Definition SIGTERM : Z := 15.

(** A [subprocess.Popen] object; only [pid] is read by [setup]. *)
Record Popen := { pid : Z }.

(** How the child is detached from the parent's process group:
    [creationflags=CREATE_NEW_PROCESS_GROUP] or [preexec_fn=os.setsid]. *)
Inductive group_flag := CREATE_NEW_PROCESS_GROUP | preexec_setsid.

Record Client := { client_host : string; client_port : Z }.
Record World := { world_client : Client }.
Inductive WeatherParameters := ClearNoon.

(** [carla.WorldSettings]: the settings of an episode.  A fixed time step
    is set or it is not: [None] is the variable time step. *)
Record WorldSettings :=
  { synchronous_mode : bool; fixed_delta_seconds : option float }.

(** [carla.WorldSettings(synchronous_mode=sync, fixed_delta_seconds=step)]:
    the constructor keeps the step only when it is above [0.0]; given any
    other value it leaves the fixed step unset. *)
Definition carla_WorldSettings (sync : bool) (step : float) : WorldSettings :=
  {| synchronous_mode := sync;
     fixed_delta_seconds := if (0 <? step)%float then Some step else None |}.

(** The calls made on the CARLA client library. *)
Inductive rpc :=
| Client_init (host : string) (port : Z)
| set_timeout (secs : float)
| load_world (map_name : string)
| get_world
| set_weather (preset : WeatherParameters)
| apply_settings (st : WorldSettings)
| get_server_version
| get_client_version.

(** Callables as [atexit] compares them: a builtin is equal to itself, and
    every evaluation of a [lambda] expression is a new function object,
    equal to nothing but itself. *)
Inductive callable :=
| os_killpg_fn
| lambda_fn (id : nat).

Global Instance callable_eq_dec : EqDecision callable.
Proof. solve_decision. Defined.

(** An [atexit] entry: the callable and its positional arguments. *)
Record exit_handler := { eh_func : callable; eh_args : list Z }.

Inductive kill_fn := os_kill_fn | os_killpg_call.

Inductive event :=
| EvLog (msg : string)
| EvPopen (cmd : string) (env : gmap string string) (shell : bool)
          (grp : group_flag)
| EvSleep (secs : float)
| EvRpc (port : Z) (c : rpc)
| EvKill (fn : kill_fn) (target : Z) (sig : Z).

(** ** The outside world *)

Record world := {
  os_name : string;
  (** [os.path.join] of the platform *)
  os_path_join : string → string → string;
  (** can the command interpreter ([/bin/sh], [cmd.exe]) be started *)
  sh_spawnable : string → bool;
  (** does this path name a program that can be executed *)
  exe_exists : string → bool;
  (** the pid given to the child started for a command line *)
  spawn_pid : string → Z;
  (** [time.sleep] rejecting its argument *)
  sleep_fault : float → option exn;
  (** a client call on the server at a port raising *)
  rpc_fault : Z → rpc → option exn;
  (** the frame id [apply_settings] returns *)
  frame_of : Z → Z;
  server_version_of : Z → string;
  client_version_of : Z → string;
}.

(** ** The interpreter state *)

Record state := {
  (** dict objects by identity *)
  heap : gmap nat (gmap string string);
  (** identity of the next object (dict or function) to be created *)
  next_id : nat;
  (** the [atexit] registry, oldest entry first *)
  exithandlers : list exit_handler;
  (** the pids of the children started by [subprocess.Popen] that still
      have their entry in the process table.  A child keeps its entry, and
      its pid stays a valid target of a signal, until its parent waits for
      it; a signal does not take it away.  With [shell=True] the pid is
      that of the command interpreter. *)
  procs : gset Z;
  (** the local variable [server] of [setup]; the lambdas close over it *)
  server_var : option Popen;
  (** what has been done to the outside, oldest first *)
  trace : list event;
}.

(** [os.environ] is the dict with identity 0. *)
Definition environ_loc : nat := 0.

Definition init_state (ambient : gmap string string) : state :=
  {| heap := {[ environ_loc := ambient ]}; next_id := 1; exithandlers := [];
     procs := ∅; server_var := None; trace := [] |}.

Definition with_heap (h : gmap nat (gmap string string)) (s : state) : state :=
  {| heap := h; next_id := next_id s; exithandlers := exithandlers s;
     procs := procs s; server_var := server_var s; trace := trace s |}.
Definition with_next_id (n : nat) (s : state) : state :=
  {| heap := heap s; next_id := n; exithandlers := exithandlers s;
     procs := procs s; server_var := server_var s; trace := trace s |}.
Definition with_exithandlers (l : list exit_handler) (s : state) : state :=
  {| heap := heap s; next_id := next_id s; exithandlers := l;
     procs := procs s; server_var := server_var s; trace := trace s |}.
Definition with_procs (p : gset Z) (s : state) : state :=
  {| heap := heap s; next_id := next_id s; exithandlers := exithandlers s;
     procs := p; server_var := server_var s; trace := trace s |}.
Definition with_server_var (v : option Popen) (s : state) : state :=
  {| heap := heap s; next_id := next_id s; exithandlers := exithandlers s;
     procs := procs s; server_var := v; trace := trace s |}.
Definition with_trace (t : list event) (s : state) : state :=
  {| heap := heap s; next_id := next_id s; exithandlers := exithandlers s;
     procs := procs s; server_var := server_var s; trace := t |}.

(** ** A state-and-exception monad *)

Inductive result (A : Type) :=
| Ok (a : A)
| Raise (e : exn)
| OutOfFuel.
Arguments Ok {A} a.
Arguments Raise {A} e.
Arguments OutOfFuel {A}.

Definition M (A : Type) : Type := state → result A * state.

Global Instance M_ret : MRet M := λ A a s, (Ok a, s).
Global Instance M_bind : MBind M := λ A B f m s,
  match m s with
  | (Ok a, s') => f a s'
  | (Raise e, s') => (Raise e, s')
  | (OutOfFuel, s') => (OutOfFuel, s')
  end.

Definition raise {A} (e : exn) : M A := λ s, (Raise e, s).

(** [try: body except RuntimeError as msg: handler].  Side effects of the
    body stay; only exceptions of the class are caught. *)
Definition try_except_RuntimeError {A} (body : M A) (handler : exn → M A) : M A :=
  λ s, match body s with
       | (Raise e, s') =>
           if is_RuntimeError e then handler e s' else (Raise e, s')
       | r => r
       end.

Definition emit (e : event) : M unit :=
  λ s, (Ok tt, with_trace (trace s ++ [e]) s).

(** ** The runtime fragments *)

Definition logging_debug (msg : string) : M unit := emit (EvLog msg).

(** [os.environ.copy()]: a new dict with the same items. *)
Definition os_environ_copy : M nat :=
  λ s, let l := next_id s in
       (Ok l, with_next_id (S l)
                (with_heap (<[l := default ∅ (heap s !! environ_loc)]> (heap s)) s)).

(** [d[k] = v] *)
Definition dict_setitem (d : nat) (k v : string) : M unit :=
  λ s, (Ok tt, with_heap (<[d := <[k := v]> (default ∅ (heap s !! d))]> (heap s)) s).

(** [os.environ.get(k)] *)
Definition os_environ_get (k : string) : M (option string) :=
  λ s, (Ok (default ∅ (heap s !! environ_loc) !! k), s).

(** [os.path.join(root, name)]; [None] for [root] is a [TypeError]. *)
Definition os_path_join_opt (w : world) (root : option string) (name : string)
  : M string :=
  match root with
  | Some r => mret (os_path_join w r name)
  | None => raise (TypeError "expected str, bytes or os.PathLike object, not NoneType")
  end.

(** [posixpath.join(a, b)] for a relative [b]. *)
Definition ends_with_slash (a : string) : bool :=
  match last (String.list_ascii_of_string a) with
  | Some c => Ascii.eqb c "/"%char
  | None => false
  end.
Definition posixpath_join (a b : string) : string :=
  if String.eqb a "" || ends_with_slash a then a +:+ b else a +:+ "/" +:+ b.

(** [subprocess.Popen(cmd, env=env, shell=shell, ...)].  With [shell=True]
    the child is the command interpreter, which is handed the command line
    as text: whether the program named in it exists is not looked at.
    Without a shell the program itself is executed and must exist. *)
Definition subprocess_Popen (w : world) (cmd : string) (env : nat)
    (shell : bool) (grp : group_flag) : M Popen :=
  λ s,
    let s1 := with_trace
                (trace s ++ [EvPopen cmd (default ∅ (heap s !! env)) shell grp]) s in
    if (if shell then sh_spawnable w cmd else exe_exists w cmd) then
      let p := spawn_pid w cmd in
      (Ok {| pid := p |}, with_procs ({[ p ]} ∪ procs s1) s1)
    else (Raise (OSError "No such file or directory"), s1).

(** The assignment [server = ...]. *)
Definition assign_server (p : Popen) : M unit :=
  λ s, (Ok tt, with_server_var (Some p) s).

(** Evaluating a [lambda] expression: a new function object. *)
Definition new_lambda : M callable :=
  λ s, (Ok (lambda_fn (next_id s)), with_next_id (S (next_id s)) s).

(** [atexit.register(f, *args)] *)
Definition atexit_register (f : callable) (args : list Z) : M unit :=
  λ s, (Ok tt, with_exithandlers
                 (exithandlers s ++ [{| eh_func := f; eh_args := args |}]) s).

(** [atexit.unregister(f)]: drops every entry whose callable equals [f]. *)
Definition atexit_unregister (f : callable) : M unit :=
  λ s, (Ok tt, with_exithandlers
                 (filter (λ h, eh_func h ≠ f) (exithandlers s)) s).

(** [os.kill(pid, sig)] and [os.killpg(pgid, sig)]: the signal is sent
    to a target that has an entry in the process table, and a target that
    has none is a [ProcessLookupError].  Sending the signal removes no
    entry: what the signal does to the target (and, for a command
    interpreter, to the program it started) happens outside, and only a
    wait, which [setup] never does, frees the entry.  So a second signal
    to the same child is sent as well. *)
Definition kill_with (fn : kill_fn) (target sig : Z) : M unit :=
  λ s,
    let s1 := with_trace (trace s ++ [EvKill fn target sig]) s in
    if decide (target ∈ procs s) then (Ok tt, s1)
    else (Raise (OSError "No such process"), s1).
Definition os_kill := kill_with os_kill_fn.
Definition os_killpg := kill_with os_killpg_call.

(** [time.sleep(secs)] *)
Definition time_sleep (w : world) (secs : float) : M unit :=
  emit (EvSleep secs);;
  match sleep_fault w secs with
  | Some e => raise e
  | None => mret tt
  end.

(** [sys.exit()] *)
Definition sys_exit {A} : M A := raise (SystemExit None).

(** One call on the client library. *)
Definition rpc_call (w : world) (port : Z) (c : rpc) : M unit :=
  emit (EvRpc port c);;
  match rpc_fault w port c with
  | Some e => raise e
  | None => mret tt
  end.

Definition carla_Client (w : world) (host : string) (port : Z) : M Client :=
  rpc_call w port (Client_init host port);;
  mret {| client_host := host; client_port := port |}.
Definition client_set_timeout (w : world) (c : Client) (secs : float) : M unit :=
  rpc_call w (client_port c) (set_timeout secs).
Definition client_load_world (w : world) (c : Client) (map_name : string) : M unit :=
  rpc_call w (client_port c) (load_world map_name).
Definition client_get_world (w : world) (c : Client) : M World :=
  rpc_call w (client_port c) get_world;;
  mret {| world_client := c |}.
Definition world_set_weather (w : world) (wd : World) (p : WeatherParameters)
  : M unit :=
  rpc_call w (client_port (world_client wd)) (set_weather p).
Definition world_apply_settings (w : world) (wd : World) (st : WorldSettings)
  : M Z :=
  rpc_call w (client_port (world_client wd)) (apply_settings st);;
  mret (frame_of w (client_port (world_client wd))).
Definition client_get_server_version (w : world) (c : Client) : M string :=
  rpc_call w (client_port c) get_server_version;;
  mret (server_version_of w (client_port c)).
Definition client_get_client_version (w : world) (c : Client) : M string :=
  rpc_call w (client_port c) get_client_version;;
  mret (client_version_of w (client_port c)).

(** [float(z)]: the nearest double, or [OverflowError]. *)
Definition float_of_int (z : Z) : M float :=
  match binary_normalize prec emax z 0 false with
  | S754_infinity _ => raise OverflowError
  | f => mret (SF2Prim f)
  end.

(** [x / z] for a float [x] and an int [z]. *)
Definition float_truediv_int (x : float) (z : Z) : M float :=
  y ← float_of_int z;
  if (z =? 0)%Z then raise ZeroDivisionError else mret (x / y)%float.

(** ** setup (Carla-RL/setup.py, lines 19-107) *)

(** The tuple of line 43. *)
Definition towns : list string :=
  ["Town01"; "Town02"; "Town03"; "Town04"; "Town05"].

(** [town in (...)]: equality with one of the members. *)
Definition town_in (town : string) : bool := existsb (String.eqb town) towns.

(** What [setup] returns: [client, world, frame, server]. *)
Definition setup_value : Type := Client * World * Z * Popen.

(** The command line of lines 63 and 69 for an executable path and a port. *)
Definition server_cmd (w : world) (root : string) (port : Z) : string :=
  if String.eqb (os_name w) "nt" then
    os_path_join w root "CarlaUE4.exe" +:+ " -opengl "
      +:+ (" -carla-rpc-port=" +:+ pretty port) +:+ " -quality-level=Epic "
  else
    "DISPLAY= " +:+ os_path_join w root "CarlaUE4.sh" +:+ " -opengl "
      +:+ (" -carla-rpc-port=" +:+ pretty port) +:+ " -quality-level=Epic ".

(** Lines 61-72: start the server and register its exit hook. *)
Definition setup_spawn (w : world) (port : Z) (env : nat) : M Popen :=
  if String.eqb (os_name w) "nt" then
    root ← os_environ_get "CARLA_ROOT";
    path ← os_path_join_opt w root "CarlaUE4.exe";
    server ← subprocess_Popen w
      (path +:+ " -opengl " +:+ (" -carla-rpc-port=" +:+ pretty port)
         +:+ " -quality-level=Epic ")
      env true CREATE_NEW_PROCESS_GROUP;
    assign_server server;;
    f ← new_lambda;
    atexit_register f [];;
    mret server
  else
    root ← os_environ_get "CARLA_ROOT";
    path ← os_path_join_opt w root "CarlaUE4.sh";
    server ← subprocess_Popen w
      ("DISPLAY= " +:+ path +:+ " -opengl "
         +:+ (" -carla-rpc-port=" +:+ pretty port) +:+ " -quality-level=Epic ")
      env true preexec_setsid;
    assign_server server;;
    atexit_register os_killpg_fn [pid server; SIGKILL];;
    mret server.

(** Lines 79-92: the body of the [try]. *)
Definition setup_try (w : world) (town : string) (fps : Z)
    (client_timeout : float) (port : Z) (server : Popen) : M setup_value :=
  client ← carla_Client w "localhost" port;
  client_set_timeout w client client_timeout;;
  logging_debug ("Loading world: " +:+ town);;
  client_load_world w client town;;
  wd ← client_get_world w client;
  world_set_weather w wd ClearNoon;;
  delta ← float_truediv_int 1%float fps;
  frame ← world_apply_settings w wd (carla_WorldSettings true delta);
  sv ← client_get_server_version w client;
  logging_debug ("Server version: " +:+ sv);;
  cv ← client_get_client_version w client;
  logging_debug ("Client version: " +:+ cv);;
  mret (client, wd, frame, server).

(** Lines 94-103: the [except RuntimeError as msg] handler.  It gives the
    new value of [attempts]. *)
Definition setup_except (w : world) (attempts port : Z) (server : Popen)
    (msg : exn) : M Z :=
  logging_debug (exn_str msg);;
  let attempts := (attempts + 1)%Z in
  logging_debug ("Stopping CARLA server at port=" +:+ pretty port);;
  (if String.eqb (os_name w) "nt" then os_kill (pid server) SIGTERM
   else os_killpg (pid server) SIGKILL);;
  f ← new_lambda;
  atexit_unregister f;;
  mret attempts.

(** Lines 49-59: the log lines and the environment of the child.  It gives
    the identity of the dict [env]. *)
Definition setup_prologue (num_max_restarts attempts : Z) : M nat :=
  logging_debug (pretty (attempts + 1)%Z +:+ " out of " +:+ pretty num_max_restarts
                   +:+ " attempts to setup the CARLA simulator");;
  let port := (2000 + attempts)%Z in
  env ← os_environ_copy;
  dict_setitem env "SDL_VIDEODRIVER" "offscreen";;
  dict_setitem env "SDL_HINT_CUDA_DEVICE" "0";;
  logging_debug ("Inits a CARLA server at port=" +:+ pretty port);;
  mret env.

(** Lines 49-103: one turn of the [while] loop.  [inl v]: the function
    returns [v]; [inr a]: the loop goes on with [attempts = a]. *)
Definition setup_iteration (w : world) (town : string) (fps : Z)
    (server_timestop client_timeout : float) (num_max_restarts : Z)
    (attempts : Z) : M (setup_value + Z) :=
  env ← setup_prologue num_max_restarts attempts;
  let port := (2000 + attempts)%Z in
  server ← setup_spawn w port env;
  time_sleep w server_timestop;;
  logging_debug ("Connects a CARLA client at port=" +:+ pretty port);;
  try_except_RuntimeError
    (v ← setup_try w town fps client_timeout port server; mret (inl v))
    (λ msg, a ← setup_except w attempts port server msg; mret (inr a)).

(** Line 48: [while attempts < num_max_restarts].  [None]: the loop ended
    because the test failed. *)
Fixpoint setup_while (fuel : nat) (w : world) (town : string) (fps : Z)
    (server_timestop client_timeout : float) (num_max_restarts : Z)
    (attempts : Z) : M (option setup_value) :=
  match fuel with
  | O => λ s, (OutOfFuel, s)
  | S fuel' =>
      if (attempts <? num_max_restarts)%Z then
        r ← setup_iteration w town fps server_timestop client_timeout
              num_max_restarts attempts;
        match r with
        | inl v => mret (Some v)
        | inr attempts' =>
            setup_while fuel' w town fps server_timestop client_timeout
              num_max_restarts attempts'
        end
      else mret None
  end.

(** Lines 19-107.  The [assert] of line 43 is run as the interpreter runs
    it by default (without [-O]); the loop gets one unit of fuel per turn
    the test of line 48 can allow, and one for the test that ends it. *)
Definition setup (w : world) (town : string) (fps : Z)
    (server_timestop client_timeout : float) (num_max_restarts : Z)
  : M setup_value :=
  (if town_in town then mret tt else raise AssertionError);;
  let attempts := 0%Z in
  r ← setup_while (S (Z.to_nat num_max_restarts)) w town fps server_timestop
        client_timeout num_max_restarts attempts;
  match r with
  | Some v => mret v
  | None =>
      logging_debug ("Failed to connect to CARLA after " +:+ pretty num_max_restarts
                       +:+ " attempts");;
      sys_exit
  end.

(** ** Interpreter exit *)

(** Calling a registered entry.  [os.killpg] takes [(pgid, sig)]; every
    lambda of [setup] has the body [os.kill(server.pid, signal.SIGTERM)],
    with [server] read when the lambda runs. *)
Definition call_handler (h : exit_handler) : M unit :=
  match eh_func h, eh_args h with
  | os_killpg_fn, [pgid; sig] => os_killpg pgid sig
  | lambda_fn _, [] =>
      λ s, match server_var s with
           | Some server => os_kill (pid server) SIGTERM s
           | None => (Raise NameError, s)
           end
  | _, _ => raise (TypeError "wrong number of arguments")
  end.

(** [atexit._run_exitfuncs]: entries run last-registered first; an
    exception from one is reported and the others still run. *)
Definition run_exitfuncs (s : state) : state :=
  foldl (λ st h, snd (call_handler h st)) (with_exithandlers [] s)
        (rev (exithandlers s)).

(** ** Reading a trace *)

Definition popen_cmds (t : list event) : list string :=
  omap (λ e, match e with EvPopen cmd _ _ _ => Some cmd | _ => None end) t.
Definition popen_envs (t : list event) : list (gmap string string) :=
  omap (λ e, match e with EvPopen _ env _ _ => Some env | _ => None end) t.
Definition client_ports (t : list event) : list Z :=
  omap (λ e, match e with
             | EvRpc _ (Client_init _ port) => Some port
             | _ => None
             end) t.
Definition kill_targets (t : list event) : list Z :=
  omap (λ e, match e with EvKill _ target _ => Some target | _ => None end) t.
Definition applied_settings (t : list event) : list WorldSettings :=
  omap (λ e, match e with
             | EvRpc _ (apply_settings st) => Some st
             | _ => None
             end) t.

(** ** Concrete worlds *)

(** The sum of the character codes of a command line; it differs between
    the command lines of consecutive ports. *)
Definition cmd_sum (cmd : string) : Z :=
  foldr (λ c acc, (Z.of_nat (nat_of_ascii c) + acc)%Z) 0%Z
        (String.list_ascii_of_string cmd).

(** A POSIX host on which the shell starts, the simulator is installed and
    answers every call. *)
Definition posix_ok : world :=
  {| os_name := "posix"; os_path_join := posixpath_join;
     sh_spawnable := λ _, true; exe_exists := λ _, true;
     spawn_pid := cmd_sum;
     sleep_fault := λ _, None; rpc_fault := λ _ _, None;
     frame_of := λ port, (port - 1000)%Z;
     server_version_of := λ _, "0.9.13"; client_version_of := λ _, "0.9.13" |}.

Definition ambient0 : gmap string string :=
  {[ "CARLA_ROOT" := "/opt/carla"; "HOME" := "/root"; "SDL_VIDEODRIVER" := "x11" ]}.


(** ** The [try] body read off a blank state *)

(** The state a computation is run in to read off its answer and events. *)
Definition blank : state :=
  {| heap := ∅; next_id := 0; exithandlers := []; procs := ∅;
     server_var := None; trace := [] |}.

(** What the [try] body of an attempt on [port] comes to, and the events it
    leaves; by [setup_try_run] neither depends on the state it starts in. *)
Definition try_result (w : world) (town : string) (fps : Z)
    (client_timeout : float) (port : Z) (server : Popen) : result setup_value :=
  fst (setup_try w town fps client_timeout port server blank).
Definition try_events (w : world) (town : string) (fps : Z)
    (client_timeout : float) (port : Z) : list event :=
  trace (snd (setup_try w town fps client_timeout port {| pid := 0 |} blank)).

Definition trace_only {A} (m : M A) : Prop :=
  ∃ (r : result A) (evs : list event),
    ∀ s, m s = (r, with_trace (trace s ++ evs) s).

(** [1.0 / fps] as line 88 computes it when it does not raise. *)
Definition step_of_fps (fps : Z) : float :=
  (1 / SF2Prim (binary_normalize prec emax fps 0 false))%float.

(** The events of a [try] body that runs to its [return]. *)
Definition session_events (w : world) (town : string) (fps : Z)
    (client_timeout : float) (port : Z) : list event :=
  [ EvRpc port (Client_init "localhost" port);
    EvRpc port (set_timeout client_timeout);
    EvLog ("Loading world: " +:+ town);
    EvRpc port (load_world town);
    EvRpc port get_world;
    EvRpc port (set_weather ClearNoon);
    EvRpc port (apply_settings (carla_WorldSettings true (step_of_fps fps)));
    EvRpc port get_server_version;
    EvLog ("Server version: " +:+ server_version_of w port);
    EvRpc port get_client_version;
    EvLog ("Client version: " +:+ client_version_of w port) ].

(** ** States and events of one turn *)

(** States [setup] is run from: [os.environ] exists and every function
    object in the [atexit] registry has already been created. *)
Record wf (s : state) : Prop := {
  wf_environ : is_Some (heap s !! environ_loc);
  wf_next : environ_loc < next_id s;
  wf_lambdas : ∀ h i, h ∈ exithandlers s → eh_func h = lambda_fn i → i < next_id s;
}.

(** [os.environ] as a state holds it. *)
Definition environ (s : state) : gmap string string :=
  default ∅ (heap s !! environ_loc).

(** The ambient environment with the two keys of lines 57-58 set. *)
Definition child_env (amb : gmap string string) : gmap string string :=
  <["SDL_HINT_CUDA_DEVICE" := "0"]> (<["SDL_VIDEODRIVER" := "offscreen"]> amb).

Definition on_nt (w : world) : bool := String.eqb (os_name w) "nt".

(** ** The command line as the command interpreter reads it

    With [shell=True] on POSIX the child is [/bin/sh -c cmd].  A simple
    command may begin with assignment words [NAME=value]: the shell puts
    them into the environment of the program that the first other word
    names.  Words are read here as far as they hold no quoting and no
    expansion: for an assignment whose value holds any other character
    [sh_assignments] gives [None]. *)











Definition spawn_flag (w : world) : group_flag :=
  if on_nt w then CREATE_NEW_PROCESS_GROUP else preexec_setsid.

(** The entry line 66 or 72 registers; [l] is the identity the lambda of
    line 66 gets. *)
Definition registered (w : world) (l : nat) (server : Popen) : exit_handler :=
  if on_nt w then {| eh_func := lambda_fn l; eh_args := [] |}
  else {| eh_func := os_killpg_fn; eh_args := [pid server; SIGKILL] |}.

(** Function objects created by lines 61-72. *)
Definition spawn_ids (w : world) : nat := if on_nt w then 1 else 0.

(** The kill of lines 98-101. *)
Definition kill_event (w : world) (server : Popen) : event :=
  if on_nt w then EvKill os_kill_fn (pid server) SIGTERM
  else EvKill os_killpg_call (pid server) SIGKILL.

Definition attempt_logs (num_max_restarts attempts : Z) : list event :=
  [ EvLog (pretty (attempts + 1)%Z +:+ " out of " +:+ pretty num_max_restarts
             +:+ " attempts to setup the CARLA simulator");
    EvLog ("Inits a CARLA server at port=" +:+ pretty (2000 + attempts)%Z) ].

(** The state once the server of an attempt runs (line 73), with the
    events [evs] appended since the turn began. *)
Definition launched (w : world) (s : state) (server : Popen) (evs : list event)
  : state :=
  {| heap := <[next_id s := child_env (environ s)]> (heap s);
     next_id := S (next_id s) + spawn_ids w;
     exithandlers := exithandlers s ++ [registered w (S (next_id s)) server];
     procs := {[ pid server ]} ∪ procs s;
     server_var := Some server;
     trace := trace s ++ evs |}.

(** The state after the handler of lines 94-103. *)
Definition retried (w : world) (s : state) (server : Popen) (evs : list event)
  : state :=
  {| heap := <[next_id s := child_env (environ s)]> (heap s);
     next_id := S (S (next_id s) + spawn_ids w);
     exithandlers := exithandlers s ++ [registered w (S (next_id s)) server];
     procs := {[ pid server ]} ∪ procs s;
     server_var := Some server;
     trace := trace s ++ evs |}.

(** The state after lines 49-59, with [evs] appended to the trace. *)
Definition prepared (s : state) (evs : list event) : state :=
  {| heap := <[next_id s := child_env (environ s)]> (heap s);
     next_id := S (next_id s);
     exithandlers := exithandlers s; procs := procs s;
     server_var := server_var s;
     trace := trace s ++ evs |}.

Definition popen_event (w : world) (s : state) (root : string) (attempts : Z)
  : event :=
  EvPopen (server_cmd w root (2000 + attempts)) (child_env (environ s)) true
          (spawn_flag w).

(** The events of a turn up to the start of the [try]. *)
Definition launch_events (w : world) (s : state) (root : string)
    (server_timestop : float) (num_max_restarts attempts : Z) : list event :=
  attempt_logs num_max_restarts attempts
  ++ [ popen_event w s root attempts; EvSleep server_timestop;
       EvLog ("Connects a CARLA client at port=" +:+ pretty (2000 + attempts)%Z) ].

Definition except_events (w : world) (server : Popen) (attempts : Z) (e : exn)
  : list event :=
  [ EvLog (exn_str e);
    EvLog ("Stopping CARLA server at port=" +:+ pretty (2000 + attempts)%Z);
    kill_event w server ].

(** ** Classifying attempts *)

(** The server object of attempt [a] when [CARLA_ROOT] is [root]. *)
Definition server_of (w : world) (root : string) (a : Z) : Popen :=
  {| pid := spawn_pid w (server_cmd w root (2000 + a)) |}.

(** Attempt [a] is a retryable failure: the server starts, the sleep
    returns and the [try] body raises a [RuntimeError]. *)
Definition fails_retryably (w : world) (town : string) (fps : Z)
    (ts ct : float) (amb : gmap string string) (a : Z) : bool :=
  match amb !! "CARLA_ROOT" with
  | None => false
  | Some root =>
      sh_spawnable w (server_cmd w root (2000 + a))
      && bool_decide (sleep_fault w ts = None)
      && match try_result w town fps ct (2000 + a) (server_of w root a) with
         | Raise e => is_RuntimeError e
         | _ => false
         end
  end.

(** The events of a turn that ends in the [except] handler. *)
Definition retry_events (w : world) (town : string) (fps : Z) (ts ct : float)
    (n : Z) (s : state) (root : string) (a : Z) (e : exn) : list event :=
  launch_events w s root ts n a ++ try_events w town fps ct (2000 + a)
  ++ except_events w (server_of w root a) a e.

(** The [CARLA_ROOT] the command lines are built from. *)
Definition carla_root (s : state) : string :=
  default "" (environ s !! "CARLA_ROOT").

(** The events a run appended to the trace it started with. *)
Definition events_since (s s' : state) : list event :=
  drop (length (trace s)) (trace s').

(** ** More concrete worlds *)

Definition timeout_error : exn :=
  RuntimeError "time-out of 20000ms while waiting for the simulator".

(** Loading the map times out on every port. *)
Definition never_loads (port : Z) (c : rpc) : option exn :=
  match c with load_world _ => Some timeout_error | _ => None end.

(** A POSIX host whose simulator starts but never answers in time. *)
Definition posix_refused : world :=
  {| os_name := "posix"; os_path_join := posixpath_join;
     sh_spawnable := λ _, true; exe_exists := λ _, true;
     spawn_pid := cmd_sum;
     sleep_fault := λ _, None; rpc_fault := never_loads;
     frame_of := λ port, (port - 1000)%Z;
     server_version_of := λ _, "0.9.13"; client_version_of := λ _, "0.9.13" |}.

(** A POSIX host whose simulator answers on port 2001 but not on 2000. *)
Definition posix_second_try : world :=
  {| os_name := "posix"; os_path_join := posixpath_join;
     sh_spawnable := λ _, true; exe_exists := λ _, true;
     spawn_pid := cmd_sum;
     sleep_fault := λ _, None;
     rpc_fault := λ port c, if (port =? 2000)%Z then never_loads port c else None;
     frame_of := λ port, (port - 1000)%Z;
     server_version_of := λ _, "0.9.13"; client_version_of := λ _, "0.9.13" |}.

(** A POSIX host on which [CarlaUE4.sh] is not installed: the shell starts
    and finds nothing to run, so nothing ever listens on the port. *)
Definition posix_not_installed : world :=
  {| os_name := "posix"; os_path_join := posixpath_join;
     sh_spawnable := λ _, true; exe_exists := λ _, false;
     spawn_pid := cmd_sum;
     sleep_fault := λ _, None; rpc_fault := never_loads;
     frame_of := λ port, (port - 1000)%Z;
     server_version_of := λ _, "0.9.13"; client_version_of := λ _, "0.9.13" |}.

(** A POSIX host on which no child can be started at all. *)
Definition posix_no_shell : world :=
  {| os_name := "posix"; os_path_join := posixpath_join;
     sh_spawnable := λ _, false; exe_exists := λ _, false;
     spawn_pid := cmd_sum;
     sleep_fault := λ _, None; rpc_fault := never_loads;
     frame_of := λ port, (port - 1000)%Z;
     server_version_of := λ _, "0.9.13"; client_version_of := λ _, "0.9.13" |}.

(** A Windows host whose simulator answers on port 2001 but not on 2000;
    paths are joined with a backslash. *)
Definition nt_second_try : world :=
  {| os_name := "nt"; os_path_join := λ a b, a +:+ "\" +:+ b;
     sh_spawnable := λ _, true; exe_exists := λ _, true;
     spawn_pid := cmd_sum;
     sleep_fault := λ _, None;
     rpc_fault := λ port c, if (port =? 2000)%Z then never_loads port c else None;
     frame_of := λ port, (port - 1000)%Z;
     server_version_of := λ _, "0.9.13"; client_version_of := λ _, "0.9.13" |}.

(** The program ends signalling failure to whoever started it. *)
Definition exits_with_failure {A} (r : result A) : Prop :=
  ∃ e, r = Raise e ∧ exit_status e ≠ 0%Z.

(** ** Turns and runs of the loop as relations *)

(** The six ways a turn of the loop from [attempts = a] in state [s] can
    end, with the answer it gives and the state it leaves. *)
Inductive turn (w : world) (town : string) (fps : Z) (ts ct : float) (n a : Z)
    (s : state) : result (setup_value + Z) → state → Prop :=
| turn_no_root :
    environ s !! "CARLA_ROOT" = None →
    turn w town fps ts ct n a s
      (Raise (TypeError "expected str, bytes or os.PathLike object, not NoneType"))
      (prepared s (attempt_logs n a))
| turn_no_shell root :
    environ s !! "CARLA_ROOT" = Some root →
    sh_spawnable w (server_cmd w root (2000 + a)) = false →
    turn w town fps ts ct n a s
      (Raise (OSError "No such file or directory"))
      (prepared s (attempt_logs n a ++ [popen_event w s root a]))
| turn_sleep_raises root e :
    environ s !! "CARLA_ROOT" = Some root →
    sh_spawnable w (server_cmd w root (2000 + a)) = true →
    sleep_fault w ts = Some e →
    turn w town fps ts ct n a s (Raise e)
      (launched w s (server_of w root a)
         (attempt_logs n a ++ [popen_event w s root a; EvSleep ts]))
| turn_returns root v :
    environ s !! "CARLA_ROOT" = Some root →
    sh_spawnable w (server_cmd w root (2000 + a)) = true →
    sleep_fault w ts = None →
    try_result w town fps ct (2000 + a) (server_of w root a) = Ok v →
    turn w town fps ts ct n a s (Ok (inl v))
      (launched w s (server_of w root a)
         (launch_events w s root ts n a ++ try_events w town fps ct (2000 + a)))
| turn_retries root e :
    environ s !! "CARLA_ROOT" = Some root →
    sh_spawnable w (server_cmd w root (2000 + a)) = true →
    sleep_fault w ts = None →
    try_result w town fps ct (2000 + a) (server_of w root a) = Raise e →
    is_RuntimeError e = true →
    turn w town fps ts ct n a s (Ok (inr (a + 1)%Z))
      (retried w s (server_of w root a)
         (retry_events w town fps ts ct n s root a e))
| turn_escapes root e :
    environ s !! "CARLA_ROOT" = Some root →
    sh_spawnable w (server_cmd w root (2000 + a)) = true →
    sleep_fault w ts = None →
    try_result w town fps ct (2000 + a) (server_of w root a) = Raise e →
    is_RuntimeError e = false →
    turn w town fps ts ct n a s (Raise e)
      (launched w s (server_of w root a)
         (launch_events w s root ts n a ++ try_events w town fps ct (2000 + a))).

(** The runs of the loop of line 48 from [attempts = a]: it ends when the
    test fails or when a turn returns or raises, and goes on after a turn
    that ended in the handler. *)
Inductive loop_run (w : world) (town : string) (fps : Z) (ts ct : float) (n : Z)
  : Z → state → result (option setup_value) → state → Prop :=
| run_test_fails a s :
    (n ≤ a)%Z →
    loop_run w town fps ts ct n a s (Ok None) s
| run_returns a s v s' :
    (a < n)%Z → wf s →
    turn w town fps ts ct n a s (Ok (inl v)) s' →
    loop_run w town fps ts ct n a s (Ok (Some v)) s'
| run_raises a s e s' :
    (a < n)%Z → wf s →
    turn w town fps ts ct n a s (Raise e) s' →
    loop_run w town fps ts ct n a s (Raise e) s'
| run_goes_on a s s1 r s' :
    (a < n)%Z → wf s →
    turn w town fps ts ct n a s (Ok (inr (a + 1)%Z)) s1 →
    loop_run w town fps ts ct n (a + 1) s1 r s' →
    loop_run w town fps ts ct n a s r s'.

(** The kill calls of a trace, as made. *)
Definition kill_events (t : list event) : list event :=
  omap (λ e, match e with EvKill _ _ _ => Some e | _ => None end) t.

(** The kill of lines 98-101 for the server a command line started. *)
Definition kill_of_cmd (w : world) (cmd : string) : event :=
  kill_event w {| pid := spawn_pid w cmd |}.

(** The entry line 72 registers for the server a command line started. *)
Definition posix_hook (w : world) (cmd : string) : exit_handler :=
  {| eh_func := os_killpg_fn; eh_args := [spawn_pid w cmd; SIGKILL] |}.

(** The command lines of a list whose child did start. *)
Definition started (w : world) (cmds : list string) : list string :=
  filter (λ c, sh_spawnable w c = true) cmds.

(** Process group [p] has a [killpg] entry in the registry. *)
Definition hooked (s : state) (p : Z) : Prop :=
  {| eh_func := os_killpg_fn; eh_args := [p; SIGKILL] |} ∈ exithandlers s.

(** Process [p] is the one [server] is bound to, and a lambda of line 66
    is in the registry. *)
Definition held (s : state) (p : Z) : Prop :=
  server_var s = Some {| pid := p |} ∧
  ∃ i, {| eh_func := lambda_fn i; eh_args := [] |} ∈ exithandlers s.

(** * Carla-RL/train_sac.py: the training script

    [main] (lines 17-67) only drives objects of other modules: the two
    [CarlaEnv] environments, the [SAC] model and the checkpoint callback.
    Each call on them is recorded, with its arguments, in a history; what
    a call answers (whether it raises, the observation, the action, the
    [done] flag) is read from a [trainer], which sees the whole history
    up to and including the call. *)

(** The variables [env] and [test_env]. *)
Inductive env_id := Env | TestEnv.

(** The arguments of [CarlaEnv(...)]. *)
Record CarlaEnv_args := {
  ce_town : string;
  ce_fps : Z;
  ce_im_width : Z;
  ce_im_height : Z;
  ce_repeat_action : option Z;
  ce_start_transform_type : option string;
  ce_sensors : option (list string);
  ce_action_type : string;
  ce_enable_preview : bool;
  ce_steps_per_episode : option Z;
  ce_playing : bool;
}.

(** [NormalActionNoise(mean=np.array(...), sigma=np.array(...))] *)
Record NormalActionNoise := { noise_mean : list float; noise_sigma : list float }.

(** The keyword arguments of [SAC(MultiInputPolicy, env, ...)]. *)
Record SAC_args := {
  sac_policy : string;
  sac_verbose : Z;
  sac_buffer_size : Z;
  sac_seed : Z;
  sac_device : string;
  sac_tensorboard_log : string;
  sac_action_noise : NormalActionNoise;
}.

(** The calls [main] makes.  Observations, actions, rewards and infos are
    values [main] only passes on; they are numbered. *)
Inductive tcall :=
| CarlaEnv_new (a : CarlaEnv_args)
| CheckpointCallback_new (save_freq : Z) (save_path name_prefix : string)
| SAC_load (model_name : option string) (e : env_id) (noise : NormalActionNoise)
| SAC_new (a : SAC_args) (e : env_id)
| print_model_dict
| model_learn (total_timesteps log_interval : Z) (tb_log_name : option string)
| model_save (model_name : option string)
| env_reset (e : env_id)
| model_predict (obs : nat)
| env_step (e : env_id) (action : nat)
| env_render (e : env_id)
| print_reward (reward info : nat)
| env_close (e : env_id).

Record trainer := {
  (** the call made last raising *)
  call_fault : list tcall → option exn;
  (** the observation [reset] or [step] returned *)
  observed : list tcall → nat;
  (** the action [predict] returned *)
  chosen : list tcall → nat;
  rewarded : list tcall → nat;
  informed : list tcall → nat;
  (** the [done] flag [step] returned *)
  finished : list tcall → bool;
}.

(** Computations over the history of calls. *)
Definition TM (A : Type) : Type := list tcall → result A * list tcall.

Global Instance TM_ret : MRet TM := λ A a h, (Ok a, h).
Global Instance TM_bind : MBind TM := λ A B f m h,
  match m h with
  | (Ok a, h') => f a h'
  | (Raise e, h') => (Raise e, h')
  | (OutOfFuel, h') => (OutOfFuel, h')
  end.

(** Making a call: it enters the history, then raises or returns. *)
Definition invoke (w : trainer) (c : tcall) : TM unit :=
  λ h, match call_fault w (h ++ [c]) with
       | Some e => (Raise e, h ++ [c])
       | None => (Ok tt, h ++ [c])
       end.

(** Reading what the call made last returned. *)
Definition answer {A} (f : list tcall → A) : TM A := λ h, (Ok (f h), h).

(** [try: body finally: final].  [final] runs whether [body] returned or
    raised; an exception of [final] replaces the outcome of [body]. *)
Definition try_finally {A} (body : TM A) (final : TM unit) : TM A :=
  λ h, match body h with
       | (OutOfFuel, h') => (OutOfFuel, h')
       | (r, h') =>
           match final h' with
           | (Ok _, h'') => (r, h'')
           | (Raise e, h'') => (Raise e, h'')
           | (OutOfFuel, h'') => (OutOfFuel, h'')
           end
       end.

(** Truth value of the [load_model] argument ([None] when [--load] is not
    given). *)
Definition truthy (b : option bool) : bool := default false b.

(** The noise of lines 32 and 43: [mean = [0.3, 0.0]], [sigma = [0.5, 0.1]],
    with the doubles nearest to 0.3 and 0.1 written out. *)
Definition action_noise : NormalActionNoise :=
  {| noise_mean := [0x1.3333333333333p-2; 0]%float;
     noise_sigma := [0.5; 0x1.999999999999ap-4]%float |}.

(** Lines 59-63: [while not done]. *)
Fixpoint main_while_not_done (fuel : nat) (w : trainer) (done : bool) (obs : nat)
  : TM unit :=
  if done then mret tt
  else
    match fuel with
    | O => λ h, (OutOfFuel, h)
    | S fuel' =>
        invoke w (model_predict obs);;
        action ← answer (chosen w);
        invoke w (env_step TestEnv action);;
        obs' ← answer (observed w);
        reward ← answer (rewarded w);
        done' ← answer (finished w);
        info ← answer (informed w);
        invoke w (env_render TestEnv);;
        invoke w (print_reward reward info);;
        main_while_not_done fuel' w done' obs'
    end.

(** Lines 56-63: [for test_episode in range(...)], with the number of
    episodes left. *)
Fixpoint main_for_episodes (episodes fuel : nat) (w : trainer) : TM unit :=
  match episodes with
  | O => mret tt
  | S episodes' =>
      invoke w (env_reset TestEnv);;
      obs ← answer (observed w);
      let done := false in
      main_while_not_done fuel w done obs;;
      main_for_episodes episodes' fuel w
  end.

(** Lines 28-63: the body of the [try]. *)
Definition main_try (fuel : nat) (w : trainer) (model_name : option string)
    (load_model : option bool) (seed : Z) : TM unit :=
  (if truthy load_model then
     invoke w (SAC_load model_name Env action_noise)
   else
     invoke w (SAC_new {| sac_policy := "MultiInputPolicy"; sac_verbose := 2;
                          sac_buffer_size := 10000; sac_seed := seed;
                          sac_device := "cuda";
                          sac_tensorboard_log := "./sem_sac";
                          sac_action_noise := action_noise |} Env);;
     invoke w print_model_dict;;
     invoke w (model_learn 20000000 4 model_name);;
     invoke w (model_save model_name));;
  if truthy load_model then
    let test_episode_length := 10 in
    main_for_episodes test_episode_length fuel w
  else mret tt.

(** Lines 20-25: the two environments and the callback. *)
Definition main_build (w : trainer) (town : string) (fps im_width im_height : Z)
    (repeat_action : option Z) (start_transform_type : option string)
    (sensors : option (list string)) (enable_preview : bool)
    (steps_per_episode : option Z) (action_type : string) : TM unit :=
  invoke w (CarlaEnv_new
              {| ce_town := town; ce_fps := fps; ce_im_width := im_width;
                 ce_im_height := im_height; ce_repeat_action := repeat_action;
                 ce_start_transform_type := start_transform_type;
                 ce_sensors := sensors; ce_action_type := action_type;
                 ce_enable_preview := enable_preview;
                 ce_steps_per_episode := steps_per_episode;
                 ce_playing := false |});;
  invoke w (CarlaEnv_new
              {| ce_town := town; ce_fps := fps; ce_im_width := im_width;
                 ce_im_height := im_height; ce_repeat_action := repeat_action;
                 ce_start_transform_type := start_transform_type;
                 ce_sensors := sensors; ce_action_type := action_type;
                 ce_enable_preview := false;
                 ce_steps_per_episode := steps_per_episode;
                 ce_playing := true |});;
  invoke w (CheckpointCallback_new 10000 "./logs/" "sac_model").

(** Lines 66-67: the [finally] block. *)
Definition main_finally (w : trainer) : TM unit :=
  invoke w (env_close Env);;
  invoke w (env_close TestEnv).

(** [main] (lines 17-67); [fuel] bounds the steps of one test episode. *)
Definition main (fuel : nat) (w : trainer) (model_name : option string)
    (load_model : option bool) (town : string) (fps im_width im_height : Z)
    (repeat_action : option Z) (start_transform_type : option string)
    (sensors : option (list string)) (enable_preview : bool)
    (steps_per_episode : option Z) (seed : Z) (action_type : string) : TM unit :=
  main_build w town fps im_width im_height repeat_action start_transform_type
    sensors enable_preview steps_per_episode action_type;;
  try_finally (main_try fuel w model_name load_model seed) (main_finally w).

(** ** Reading a history *)

Fixpoint tally (f : tcall → bool) (l : list tcall) : nat :=
  match l with
  | [] => 0
  | c :: l' => (if f c then 1 else 0) + tally f l'
  end.

Definition is_reset (c : tcall) : bool :=
  match c with env_reset _ => true | _ => false end.
Definition is_predict (c : tcall) : bool :=
  match c with model_predict _ => true | _ => false end.
Definition is_step (c : tcall) : bool :=
  match c with env_step _ _ => true | _ => false end.
Definition is_render (c : tcall) : bool :=
  match c with env_render _ => true | _ => false end.
Definition is_print_reward (c : tcall) : bool :=
  match c with print_reward _ _ => true | _ => false end.
Definition is_close (c : tcall) : bool :=
  match c with env_close _ => true | _ => false end.

(** The calls of the test phase (lines 54-63). *)
Definition is_test_call (c : tcall) : bool :=
  is_reset c || is_predict c || is_step c || is_render c || is_print_reward c.

(** The calls of the training phase (lines 34-52). *)
Definition is_training_call (c : tcall) : bool :=
  match c with
  | SAC_new _ _ | print_model_dict | model_learn _ _ _ | model_save _ => true
  | _ => false
  end.

(** The calls on the training environment [env] after it is built. *)
Definition on_env (c : tcall) : bool :=
  match c with
  | env_reset Env | env_step Env _ | env_render Env | env_close Env => true
  | _ => false
  end.

(** The calls [main_build] makes. *)
Definition build_calls (town : string) (fps im_width im_height : Z)
    (repeat_action : option Z) (start_transform_type : option string)
    (sensors : option (list string)) (enable_preview : bool)
    (steps_per_episode : option Z) (action_type : string) : list tcall :=
  [ CarlaEnv_new
      {| ce_town := town; ce_fps := fps; ce_im_width := im_width;
         ce_im_height := im_height; ce_repeat_action := repeat_action;
         ce_start_transform_type := start_transform_type;
         ce_sensors := sensors; ce_action_type := action_type;
         ce_enable_preview := enable_preview;
         ce_steps_per_episode := steps_per_episode;
         ce_playing := false |};
    CarlaEnv_new
      {| ce_town := town; ce_fps := fps; ce_im_width := im_width;
         ce_im_height := im_height; ce_repeat_action := repeat_action;
         ce_start_transform_type := start_transform_type;
         ce_sensors := sensors; ce_action_type := action_type;
         ce_enable_preview := false;
         ce_steps_per_episode := steps_per_episode;
         ce_playing := true |};
    CheckpointCallback_new 10000 "./logs/" "sac_model" ].

(** A trainer on which nothing raises and every step ends its episode. *)
Definition quick_trainer : trainer :=
  {| call_fault := λ _, None;
     observed := λ h, length h; chosen := λ h, length h;
     rewarded := λ _, 1; informed := λ _, 0;
     finished := λ _, true |}.

(** A trainer whose episodes end at every third call of the history, and
    on which closing [env] raises. *)
Definition failing_close_trainer : trainer :=
  {| call_fault := λ h, match last h with
                        | Some (env_close Env) => Some (OSError "socket closed")
                        | _ => None
                        end;
     observed := λ h, length h; chosen := λ h, length h;
     rewarded := λ _, 1; informed := λ _, 0;
     finished := λ h, (length h mod 3 =? 0)%nat |}.

(** A trainer on which the test environment cannot be built. *)
Definition no_test_env_trainer : trainer :=
  {| call_fault := λ h, match last h with
                        | Some (CarlaEnv_new a) =>
                            if ce_playing a then Some (RuntimeError "no simulator")
                            else None
                        | _ => None
                        end;
     observed := λ h, length h; chosen := λ h, length h;
     rewarded := λ _, 1; informed := λ _, 0;
     finished := λ _, true |}.

(** Bounds on the calls of the test phase that hold at every point of
    it, for a number of episodes begun. *)
Record test_counts (episodes : nat) (evs : list tcall) : Prop := {
  tc_resets : tally is_reset evs ≤ episodes;
  tc_steps : tally is_step evs ≤ tally is_predict evs;
  tc_renders : tally is_render evs ≤ tally is_step evs;
  tc_prints : tally is_print_reward evs ≤ tally is_render evs;
}.

(** What the counts are once the test phase has run to its end. *)
Record test_counts_done (episodes : nat) (evs : list tcall) : Prop := {
  td_resets : tally is_reset evs = episodes;
  td_steps : tally is_step evs = tally is_predict evs;
  td_renders : tally is_render evs = tally is_step evs;
  td_prints : tally is_print_reward evs = tally is_render evs;
  td_least : episodes ≤ tally is_step evs;
}.

(** Every call a computation adds to the history satisfies [Q]. *)
Definition emits {A} (Q : tcall → Prop) (m : TM A) : Prop :=
  ∀ h, ∃ evs, snd (m h) = h ++ evs ∧ Forall Q evs.

(** What holds of every call the [try] body makes: it closes nothing, it
    is not a call on [env], and it belongs to the phase chosen by
    [load_model]. *)
Definition body_call (load : bool) (c : tcall) : Prop :=
  is_close c = false ∧ on_env c = false ∧
  if load then is_training_call c = false else is_test_call c = false.

(** ** The phases of an attempt *)

(** The steps of an attempt that act on the server: launching it, the
    sleep that lets it start, opening the client, killing it. *)
Inductive phase := Launch | Sleep (secs : float) | Connect | Kill.

Definition phases (t : list event) : list phase :=
  omap (λ e, match e with
             | EvPopen _ _ _ _ => Some Launch
             | EvSleep secs => Some (Sleep secs)
             | EvRpc _ (Client_init _ _) => Some Connect
             | EvKill _ _ _ => Some Kill
             | _ => None
             end) t.

(** [k] attempts that ended in the handler. *)
Fixpoint retried_phases (ts : float) (k : nat) : list phase :=
  match k with
  | O => []
  | S k' => [Launch; Sleep ts; Connect; Kill] ++ retried_phases ts k'
  end.

(** ** Computations that only extend the trace *)

Lemma with_trace_trace s : with_trace (trace s ++ []) s = s.
Proof. destruct s; unfold with_trace; simpl. by rewrite app_nil_r. Qed.

Lemma with_trace_twice t1 t2 s :
  with_trace (trace (with_trace (trace s ++ t1) s) ++ t2)
             (with_trace (trace s ++ t1) s)
  = with_trace (trace s ++ (t1 ++ t2)) s.
Proof. destruct s; unfold with_trace; simpl. by rewrite app_assoc. Qed.

Lemma trace_only_ret {A} (a : A) : trace_only (mret a).
Proof. exists (Ok a), []. intros s. by rewrite with_trace_trace. Qed.

Lemma trace_only_raise {A} (e : exn) : trace_only (@raise A e).
Proof. exists (Raise e), []. intros s. unfold raise. by rewrite with_trace_trace. Qed.

Lemma trace_only_emit (e : event) : trace_only (emit e).
Proof. by exists (Ok tt), [e]. Qed.

Lemma trace_only_bind {A B} (m : M A) (f : A → M B) :
  trace_only m → (∀ a, trace_only (f a)) → trace_only (m ≫= f).
Proof.
  intros (r & evs & Hm) Hf. destruct r as [a | e |].
  - destruct (Hf a) as (r' & evs' & Hfa).
    exists r', (evs ++ evs'). intros s.
    unfold mbind, M_bind. rewrite Hm, Hfa. by rewrite with_trace_twice.
  - exists (Raise e), evs. intros s. unfold mbind, M_bind. by rewrite Hm.
  - exists OutOfFuel, evs. intros s. unfold mbind, M_bind. by rewrite Hm.
Qed.

Lemma trace_only_rpc_call w port c : trace_only (rpc_call w port c).
Proof.
  unfold rpc_call. apply trace_only_bind; [apply trace_only_emit | intros _].
  destruct (rpc_fault w port c); [apply trace_only_raise | apply trace_only_ret].
Qed.

Lemma trace_only_float_truediv_int x z : trace_only (float_truediv_int x z).
Proof.
  unfold float_truediv_int, float_of_int. apply trace_only_bind.
  - destruct (binary_normalize prec emax z 0 false);
      first [apply trace_only_raise | apply trace_only_ret].
  - intros y. destruct (z =? 0)%Z; [apply trace_only_raise | apply trace_only_ret].
Qed.

Ltac trace_only_step :=
  first
    [ apply trace_only_ret
    | apply trace_only_raise
    | apply trace_only_emit
    | apply trace_only_rpc_call
    | apply trace_only_float_truediv_int
    | apply trace_only_bind; [| intros ?] ].

Lemma trace_only_setup_try w town fps ct port server :
  trace_only (setup_try w town fps ct port server).
Proof.
  unfold setup_try, carla_Client, client_set_timeout, client_load_world,
    client_get_world, world_set_weather, world_apply_settings,
    client_get_server_version, client_get_client_version, logging_debug.
  repeat trace_only_step.
Qed.

(** Running a trace-only computation anywhere gives its answer and events
    as read off from the blank state. *)
Lemma trace_only_run {A} (m : M A) :
  trace_only m →
  ∀ s, m s = (fst (m blank), with_trace (trace s ++ trace (snd (m blank))) s).
Proof.
  intros (r & evs & Hm) s. rewrite (Hm blank), (Hm s). reflexivity.
Qed.

Ltac run_monad :=
  unfold mbind, M_bind, mret, M_ret, raise, emit, logging_debug in *; simpl in *.

Ltac split_matches :=
  repeat match goal with
         | |- context [match ?x with _ => _ end] =>
             lazymatch x with
             | context [match _ with _ => _ end] => fail
             | _ => destruct x eqn:?; simpl
             end
         end.

Ltac unfold_try :=
  unfold setup_try, carla_Client, client_set_timeout, client_load_world,
    client_get_world, world_set_weather, world_apply_settings,
    client_get_server_version, client_get_client_version, rpc_call,
    float_truediv_int, float_of_int.

Lemma setup_try_events_server w town fps ct port server server' s :
  snd (setup_try w town fps ct port server s)
  = snd (setup_try w town fps ct port server' s).
Proof. unfold_try. run_monad. split_matches; reflexivity. Qed.

Lemma setup_try_run w town fps ct port server s :
  setup_try w town fps ct port server s
  = (try_result w town fps ct port server,
     with_trace (trace s ++ try_events w town fps ct port) s).
Proof.
  rewrite (trace_only_run _ (trace_only_setup_try w town fps ct port server)).
  unfold try_result, try_events.
  by rewrite (setup_try_events_server _ _ _ _ _ server {| pid := 0 |}).
Qed.

Lemma try_events_shape w town fps ct port :
  popen_cmds (try_events w town fps ct port) = [] ∧
  popen_envs (try_events w town fps ct port) = [] ∧
  kill_targets (try_events w town fps ct port) = [] ∧
  client_ports (try_events w town fps ct port) = [port].
Proof.
  unfold try_events. unfold_try. run_monad.
  split_matches; repeat split; reflexivity.
Qed.

Lemma try_result_Ok w town fps ct port server v :
  try_result w town fps ct port server = Ok v →
  v = ({| client_host := "localhost"; client_port := port |},
       {| world_client := {| client_host := "localhost"; client_port := port |} |},
       frame_of w port, server) ∧
  fps ≠ 0%Z ∧
  try_events w town fps ct port = session_events w town fps ct port.
Proof.
  unfold try_result, try_events, session_events, step_of_fps.
  unfold_try. run_monad.
  split_matches; intros H; try discriminate H;
    injection H as <-; (split; [reflexivity | split; [lia | reflexivity]]).
Qed.

(** ** One turn of the loop, case by case *)

Lemma setup_prologue_run n a s :
  setup_prologue n a s
  = (Ok (next_id s),
     {| heap := <[next_id s := child_env (environ s)]> (heap s);
        next_id := S (next_id s);
        exithandlers := exithandlers s; procs := procs s;
        server_var := server_var s;
        trace := trace s ++ attempt_logs n a |}).
Proof.
  unfold setup_prologue, os_environ_copy, dict_setitem. run_monad.
  unfold with_trace, with_heap, with_next_id; simpl.
  rewrite !lookup_insert_eq; simpl. rewrite !insert_insert_eq.
  unfold child_env, environ, attempt_logs. by rewrite <- !app_assoc.
Qed.

Lemma setup_spawn_run w port env s :
  setup_spawn w port env s
  = match environ s !! "CARLA_ROOT" with
    | None =>
        (Raise (TypeError "expected str, bytes or os.PathLike object, not NoneType"), s)
    | Some root =>
        let cmd := server_cmd w root port in
        let ev := EvPopen cmd (default ∅ (heap s !! env)) true (spawn_flag w) in
        if sh_spawnable w cmd then
          let server := {| pid := spawn_pid w cmd |} in
          (Ok server,
           {| heap := heap s; next_id := next_id s + spawn_ids w;
              exithandlers := exithandlers s ++ [registered w (next_id s) server];
              procs := {[ pid server ]} ∪ procs s;
              server_var := Some server;
              trace := trace s ++ [ev] |})
        else (Raise (OSError "No such file or directory"),
              with_trace (trace s ++ [ev]) s)
    end.
Proof.
  unfold setup_spawn, server_cmd, spawn_flag, registered, spawn_ids, on_nt,
    os_environ_get, os_path_join_opt, subprocess_Popen, assign_server,
    new_lambda, atexit_register, environ.
  destruct (String.eqb (os_name w) "nt"); run_monad;
    destruct (default ∅ (heap s !! environ_loc) !! "CARLA_ROOT"); simpl;
    try reflexivity;
    match goal with |- context [sh_spawnable w ?c] => destruct (sh_spawnable w c) end;
    simpl; try reflexivity.
  - unfold with_trace, with_procs, with_server_var, with_next_id, with_exithandlers;
      simpl. do 2 f_equal. lia.
  - unfold with_trace, with_procs, with_server_var, with_next_id, with_exithandlers;
      simpl. do 2 f_equal. lia.
Qed.

(** Unregistering a function object created just now removes nothing. *)
Lemma filter_fresh_lambda (l : list exit_handler) (n : nat) :
  (∀ h i, h ∈ l → eh_func h = lambda_fn i → i < n) →
  filter (λ h, eh_func h ≠ lambda_fn n) l = l.
Proof.
  intros Hl. induction l as [| h l IH]; [reflexivity |].
  rewrite filter_cons. destruct (decide (eh_func h ≠ lambda_fn n)) as [_ | Heq].
  - f_equal. apply IH. intros h' i Hin. apply Hl. by right.
  - exfalso. apply Heq. intros Hh. specialize (Hl h n). 
    assert (n < n) by (apply Hl; [by left | done]). lia.
Qed.

Lemma setup_except_run w a port server e s :
  pid server ∈ procs s →
  (∀ h i, h ∈ exithandlers s → eh_func h = lambda_fn i → i < next_id s) →
  setup_except w a port server e s
  = (Ok (a + 1)%Z,
     {| heap := heap s; next_id := S (next_id s);
        exithandlers := exithandlers s;
        procs := procs s;
        server_var := server_var s;
        trace := trace s ++ [ EvLog (exn_str e);
                              EvLog ("Stopping CARLA server at port=" +:+ pretty port);
                              kill_event w server ] |}).
Proof.
  intros Hin Hl.
  unfold setup_except, kill_event, on_nt, os_kill, os_killpg, kill_with,
    new_lambda, atexit_unregister.
  destruct (String.eqb (os_name w) "nt"); run_monad;
    (destruct (decide (pid server ∈ procs s)); [| done]); simpl;
    rewrite (filter_fresh_lambda _ _ Hl); rewrite <- !app_assoc; reflexivity.
Qed.

Lemma environ_prepared s evs :
  environ_loc < next_id s → environ (prepared s evs) = environ s.
Proof.
  intros Hlt. unfold environ, prepared; simpl.
  rewrite lookup_insert_ne; [done | lia].
Qed.

(** The whole turn, as a case split on what the outside answers. *)
Lemma setup_iteration_run w town fps ts ct n a s :
  environ_loc < next_id s →
  (∀ h i, h ∈ exithandlers s → eh_func h = lambda_fn i → i < next_id s) →
  setup_iteration w town fps ts ct n a s
  = match environ s !! "CARLA_ROOT" with
    | None =>
        (Raise (TypeError "expected str, bytes or os.PathLike object, not NoneType"),
         prepared s (attempt_logs n a))
    | Some root =>
        let cmd := server_cmd w root (2000 + a) in
        let server := {| pid := spawn_pid w cmd |} in
        if sh_spawnable w cmd then
          match sleep_fault w ts with
          | Some e =>
              (Raise e,
               launched w s server
                 (attempt_logs n a ++ [popen_event w s root a; EvSleep ts]))
          | None =>
              let evs := launch_events w s root ts n a
                         ++ try_events w town fps ct (2000 + a) in
              match try_result w town fps ct (2000 + a) server with
              | Ok v => (Ok (inl v), launched w s server evs)
              | Raise e =>
                  if is_RuntimeError e
                  then (Ok (inr (a + 1)%Z),
                        retried w s server (evs ++ except_events w server a e))
                  else (Raise e, launched w s server evs)
              | OutOfFuel => (OutOfFuel, launched w s server evs)
              end
          end
        else
          (Raise (OSError "No such file or directory"),
           prepared s (attempt_logs n a ++ [popen_event w s root a]))
    end.
Proof.
  intros Hnext Hlam.
  unfold setup_iteration. unfold mbind at 1, M_bind at 1.
  rewrite setup_prologue_run. fold (prepared s (attempt_logs n a)).
  unfold mbind at 1, M_bind at 1. rewrite setup_spawn_run.
  rewrite environ_prepared by done.
  destruct (environ s !! "CARLA_ROOT") as [root |]; [| reflexivity].
  cbv zeta. simpl heap. rewrite lookup_insert_eq. simpl default.
  fold (popen_event w s root a).
  destruct (sh_spawnable w (server_cmd w root (2000 + a))).
  2: { unfold with_trace, prepared; simpl. by rewrite <- app_assoc. }
  set (server := {| pid := spawn_pid w (server_cmd w root (2000 + a)) |}).
  unfold time_sleep, try_except_RuntimeError. run_monad.
  destruct (sleep_fault w ts) as [e |].
  { unfold with_trace, launched; simpl. rewrite <- !app_assoc. simpl.
    do 2 f_equal. }
  rewrite setup_try_run.
  destruct (try_result w town fps ct (2000 + a) server) as [v | e |].
  - unfold with_trace, launched, launch_events; simpl.
    rewrite <- !app_assoc. simpl. reflexivity.
  - destruct (is_RuntimeError e).
    + rewrite setup_except_run.
      * unfold with_trace, retried, launch_events, except_events; simpl.
        rewrite <- ?app_assoc. simpl. rewrite <- ?app_assoc. reflexivity.
      * simpl. set_solver.
      * simpl. intros h i Hin Hf. apply elem_of_app in Hin as [Hin | Hin].
        -- specialize (Hlam h i Hin Hf). lia.
        -- apply list_elem_of_singleton in Hin. subst h.
           unfold registered, spawn_ids in *. destruct (on_nt w); simpl in *.
           ++ injection Hf as <-. lia.
           ++ discriminate.
    + unfold with_trace, launched, launch_events; simpl.
      rewrite <- !app_assoc. simpl. reflexivity.
  - unfold with_trace, launched, launch_events; simpl.
    rewrite <- !app_assoc. simpl. reflexivity.
Qed.

(** ** Runs of retryable failures *)

Lemma fails_retryably_spec w town fps ts ct amb a :
  fails_retryably w town fps ts ct amb a = true →
  ∃ root msg,
    amb !! "CARLA_ROOT" = Some root ∧
    sh_spawnable w (server_cmd w root (2000 + a)) = true ∧
    sleep_fault w ts = None ∧
    try_result w town fps ct (2000 + a) (server_of w root a)
    = Raise (RuntimeError msg).
Proof.
  unfold fails_retryably. destruct (amb !! "CARLA_ROOT") as [root |]; [| done].
  intros H. apply andb_true_iff in H as [H Htry].
  apply andb_true_iff in H as [Hsh Hsl]. apply bool_decide_eq_true in Hsl.
  destruct (try_result w town fps ct (2000 + a) (server_of w root a))
    as [v | e |] eqn:Hres; try done.
  destruct e; try done. eexists _, _. repeat split; eauto.
Qed.

Lemma setup_iteration_retry w town fps ts ct n a s root msg :
  wf s →
  environ s !! "CARLA_ROOT" = Some root →
  sh_spawnable w (server_cmd w root (2000 + a)) = true →
  sleep_fault w ts = None →
  try_result w town fps ct (2000 + a) (server_of w root a)
  = Raise (RuntimeError msg) →
  setup_iteration w town fps ts ct n a s
  = (Ok (inr (a + 1)%Z),
     retried w s (server_of w root a)
       (retry_events w town fps ts ct n s root a (RuntimeError msg))).
Proof.
  intros [_ Hnext Hlam] Hroot Hsh Hsl Htry.
  rewrite setup_iteration_run by done.
  rewrite Hroot. cbv zeta. rewrite Hsh, Hsl.
  fold (server_of w root a). rewrite Htry. simpl.
  unfold retry_events. reflexivity.
Qed.

Lemma wf_retried w s server evs : wf s → wf (retried w s server evs).
Proof.
  intros [Henv Hnext Hlam]. split; simpl.
  - rewrite lookup_insert_ne; [done | unfold environ_loc in *; lia].
  - unfold environ_loc in *; lia.
  - intros h i Hin Hf. apply elem_of_app in Hin as [Hin | Hin].
    + specialize (Hlam h i Hin Hf). lia.
    + apply list_elem_of_singleton in Hin. subst h.
      unfold registered, spawn_ids in *. destruct (on_nt w); simpl in *.
      * injection Hf as <-. lia.
      * discriminate.
Qed.

Lemma wf_launched w s server evs : wf s → wf (launched w s server evs).
Proof.
  intros [Henv Hnext Hlam]. split; simpl.
  - rewrite lookup_insert_ne; [done | unfold environ_loc in *; lia].
  - unfold environ_loc in *; lia.
  - intros h i Hin Hf. apply elem_of_app in Hin as [Hin | Hin].
    + specialize (Hlam h i Hin Hf). lia.
    + apply list_elem_of_singleton in Hin. subst h.
      unfold registered, spawn_ids in *. destruct (on_nt w); simpl in *.
      * injection Hf as <-. lia.
      * discriminate.
Qed.

Lemma wf_prepared s evs : wf s → wf (prepared s evs).
Proof.
  intros [Henv Hnext Hlam]. split; simpl.
  - rewrite lookup_insert_ne; [done | unfold environ_loc in *; lia].
  - unfold environ_loc in *; lia.
  - intros h i Hin Hf. specialize (Hlam h i Hin Hf). lia.
Qed.

Lemma heap_environ_retried w s server evs :
  wf s → heap (retried w s server evs) !! environ_loc = heap s !! environ_loc.
Proof.
  intros [_ Hnext _]. simpl. rewrite lookup_insert_ne; [done | lia].
Qed.

Lemma heap_environ_launched w s server evs :
  wf s → heap (launched w s server evs) !! environ_loc = heap s !! environ_loc.
Proof.
  intros [_ Hnext _]. simpl. rewrite lookup_insert_ne; [done | lia].
Qed.

Lemma heap_environ_prepared s evs :
  wf s → heap (prepared s evs) !! environ_loc = heap s !! environ_loc.
Proof.
  intros [_ Hnext _]. simpl. rewrite lookup_insert_ne; [done | lia].
Qed.

Lemma wf_init amb : wf (init_state amb).
Proof.
  split; simpl.
  - rewrite lookup_singleton_eq. by eexists.
  - unfold environ_loc. lia.
  - intros h i Hin. by apply elem_of_nil in Hin.
Qed.

(** ** What a turn leaves in the trace *)

Lemma popen_cmds_app t1 t2 : popen_cmds (t1 ++ t2) = popen_cmds t1 ++ popen_cmds t2.
Proof. apply omap_app. Qed.
Lemma popen_envs_app t1 t2 : popen_envs (t1 ++ t2) = popen_envs t1 ++ popen_envs t2.
Proof. apply omap_app. Qed.
Lemma client_ports_app t1 t2 :
  client_ports (t1 ++ t2) = client_ports t1 ++ client_ports t2.
Proof. apply omap_app. Qed.
Lemma kill_targets_app t1 t2 :
  kill_targets (t1 ++ t2) = kill_targets t1 ++ kill_targets t2.
Proof. apply omap_app. Qed.

Lemma kill_targets_kill_event w server :
  kill_targets [kill_event w server] = [pid server].
Proof. unfold kill_event. by destruct (on_nt w). Qed.

Lemma retry_events_shape w town fps ts ct n s root a e :
  popen_cmds (retry_events w town fps ts ct n s root a e)
  = [server_cmd w root (2000 + a)] ∧
  popen_envs (retry_events w town fps ts ct n s root a e)
  = [child_env (environ s)] ∧
  client_ports (retry_events w town fps ts ct n s root a e) = [(2000 + a)%Z] ∧
  kill_targets (retry_events w town fps ts ct n s root a e)
  = [pid (server_of w root a)].
Proof.
  unfold retry_events, launch_events, except_events, attempt_logs, popen_event.
  destruct (try_events_shape w town fps ct (2000 + a)) as (H1 & H2 & H3 & H4).
  rewrite !popen_cmds_app, !popen_envs_app, !client_ports_app, !kill_targets_app.
  rewrite H1, H2, H3, H4. unfold kill_event.
  destruct (on_nt w); repeat split; reflexivity.
Qed.

Lemma try_result_fuel w town fps ct port server :
  try_result w town fps ct port server ≠ OutOfFuel.
Proof.
  unfold try_result. unfold_try. run_monad. split_matches; discriminate.
Qed.

Ltac summary_with wfl hl :=
  split; [done | split; [by apply wfl | split; [by apply hl |]]].

(** Whatever the outside answers, a turn launches at most once, with the
    command line and the environment of its own port, connects at most
    once and only after a launch, and leaves [os.environ] alone. *)
Lemma setup_iteration_summary w town fps ts ct n a s r s' :
  wf s →
  setup_iteration w town fps ts ct n a s = (r, s') →
  r ≠ OutOfFuel ∧ wf s' ∧
  heap s' !! environ_loc = heap s !! environ_loc ∧
  ∃ (evs : list event) (l c : bool),
    trace s' = trace s ++ evs ∧
    (c = true → l = true) ∧
    popen_cmds evs = (if l then [server_cmd w (carla_root s) (2000 + a)] else []) ∧
    popen_envs evs = (if l then [child_env (environ s)] else []) ∧
    client_ports evs = (if c then [(2000 + a)%Z] else []) ∧
    (∀ a', r = Ok (inr a') → a' = (a + 1)%Z ∧ l = true ∧ c = true).
Proof.
  intros Hwf. pose proof Hwf as [_ Hnext Hlam].
  rewrite setup_iteration_run by done. unfold carla_root.
  destruct (environ s !! "CARLA_ROOT") as [root |]; simpl.
  2: { intros [= <- <-]. summary_with wf_prepared heap_environ_prepared.
       exists (attempt_logs n a), false, false. repeat split; try done. }
  destruct (sh_spawnable w (server_cmd w root (2000 + a))).
  2: { intros [= <- <-]. summary_with wf_prepared heap_environ_prepared.
       exists (attempt_logs n a ++ [popen_event w s root a]), true, false.
         repeat split; try done. }
  destruct (sleep_fault w ts) as [e |].
  { intros [= <- <-]. summary_with wf_launched heap_environ_launched.
    exists (attempt_logs n a ++ [popen_event w s root a; EvSleep ts]), true, false.
      repeat split; try done. }
  fold (server_of w root a).
  pose proof (try_result_fuel w town fps ct (2000 + a) (server_of w root a)) as Hf.
  destruct (try_events_shape w town fps ct (2000 + a)) as (H1 & H2 & H3 & H4).
  assert (Hshape :
    popen_cmds (launch_events w s root ts n a ++ try_events w town fps ct (2000 + a))
    = [server_cmd w root (2000 + a)] ∧
    popen_envs (launch_events w s root ts n a ++ try_events w town fps ct (2000 + a))
    = [child_env (environ s)] ∧
    client_ports (launch_events w s root ts n a ++ try_events w town fps ct (2000 + a))
    = [(2000 + a)%Z]).
  { rewrite popen_cmds_app, popen_envs_app, client_ports_app, H1, H2, H4.
    repeat split; reflexivity. }
  destruct Hshape as (S1 & S2 & S3).
  destruct (try_result w town fps ct (2000 + a) (server_of w root a)) as [v | e |];
    [| destruct (is_RuntimeError e) |]; try done.
  - intros [= <- <-]. summary_with wf_launched heap_environ_launched.
    eexists _, true, true. repeat split; try done.
  - intros [= <- <-]. summary_with wf_retried heap_environ_retried.
    destruct (retry_events_shape w town fps ts ct n s root a e)
        as (R1 & R2 & R3 & _).
      exists (retry_events w town fps ts ct n s root a e), true, true.
      repeat split; try done. congruence.
  - intros [= <- <-]. summary_with wf_launched heap_environ_launched.
    eexists _, true, true. repeat split; try done.
Qed.

(** ** The loop *)

Lemma environ_heap s s' :
  heap s' !! environ_loc = heap s !! environ_loc → environ s' = environ s.
Proof. unfold environ. by intros ->. Qed.

Lemma seqZ_S {A} (f : Z → A) (a : Z) (k : nat) :
  f <$> seqZ a (Z.of_nat (S k)) = f a :: (f <$> seqZ (a + 1) (Z.of_nat k)).
Proof.
  rewrite seqZ_cons by lia. rewrite fmap_cons.
  replace (Z.succ a) with (a + 1)%Z by lia.
  replace (Z.pred (Z.of_nat (S k))) with (Z.of_nat k) by lia.
  reflexivity.
Qed.

(** What any run of the loop from [attempts = a] leaves behind: [kl]
    launches and [kc] connections, on the ports [2000 + a], [2000 + a + 1],
    ... in this order, each launch with the same child environment. *)
Lemma setup_while_summary w town fps ts ct n :
  ∀ fuel a s r s',
    wf s →
    Z.to_nat (n - a) < fuel →
    setup_while fuel w town fps ts ct n a s = (r, s') →
    r ≠ OutOfFuel ∧ wf s' ∧
    heap s' !! environ_loc = heap s !! environ_loc ∧
    ∃ (evs : list event) (kl kc : nat),
      trace s' = trace s ++ evs ∧
      kc ≤ kl ∧ (Z.of_nat kl ≤ Z.max 0 (n - a))%Z ∧
      popen_cmds evs
      = (λ i, server_cmd w (carla_root s) (2000 + i)) <$> seqZ a (Z.of_nat kl) ∧
      popen_envs evs = replicate kl (child_env (environ s)) ∧
      client_ports evs = (λ i, (2000 + i)%Z) <$> seqZ a (Z.of_nat kc).
Proof.
  induction fuel as [| fuel IH]; intros a s r s' Hwf Hfuel; [lia |].
  simpl. destruct (a <? n)%Z eqn:Hlt.
  2: { intros [= <- <-]. summary_with Hwf (@eq_refl (option (gmap string string))).
       exists [], 0, 0. rewrite app_nil_r. repeat split; try done; lia. }
  apply Z.ltb_lt in Hlt.
  unfold mbind at 1, M_bind at 1.
  destruct (setup_iteration w town fps ts ct n a s) as [r1 s1] eqn:Hit.
  apply setup_iteration_summary in Hit as (Hf1 & Hwf1 & Henv1 & evs & l & c & Htr
    & Hcl & Hcmds & Henvs & Hports & Hnext); [| done].
  assert (Hone :
    ∃ kl kc : nat, kc ≤ kl ∧ (Z.of_nat kl ≤ Z.max 0 (n - a))%Z ∧
      popen_cmds evs
      = (λ i, server_cmd w (carla_root s) (2000 + i)) <$> seqZ a (Z.of_nat kl) ∧
      popen_envs evs = replicate kl (child_env (environ s)) ∧
      client_ports evs = (λ i, (2000 + i)%Z) <$> seqZ a (Z.of_nat kc)).
  { exists (if l then 1 else 0), (if c then 1 else 0).
    rewrite Hcmds, Henvs, Hports.
    destruct l, c; try (by discriminate Hcl);
      repeat split; try done; lia. }
  destruct r1 as [[v | a'] | e |]; [| | | done].
  - intros [= <- <-]. summary_with Hwf1 Henv1.
    destruct Hone as (kl & kc & ?). by exists evs, kl, kc.
  - destruct (Hnext a' eq_refl) as (-> & -> & ->). clear Hone.
    intros Hrest. apply IH in Hrest as (Hf2 & Hwf2 & Henv2 & evs2 & kl & kc & Htr2
      & Hle & Hbound & Hcmds2 & Henvs2 & Hports2); [| done | lia].
    split; [done |]. split; [done |].
    split; [by rewrite Henv2 |].
    exists (evs ++ evs2), (S kl), (S kc).
    rewrite Htr2, Htr, <- app_assoc.
    rewrite popen_cmds_app, popen_envs_app, client_ports_app.
    rewrite Hcmds, Henvs, Hports, Hcmds2, Henvs2, Hports2.
    rewrite !seqZ_S. unfold carla_root. rewrite (environ_heap _ _ Henv1).
    repeat split; try done; lia.
  - intros [= <- <-]. summary_with Hwf1 Henv1.
    destruct Hone as (kl & kc & ?). by exists evs, kl, kc.
Qed.

Lemma events_since_app s s' evs :
  trace s' = trace s ++ evs → events_since s s' = evs.
Proof. intros H. unfold events_since. rewrite H. by rewrite drop_app_length. Qed.

Lemma setup_unfold w town fps ts ct n s :
  setup w town fps ts ct n s
  = if town_in town then
      match setup_while (S (Z.to_nat n)) w town fps ts ct n 0 s with
      | (Ok (Some v), s') => (Ok v, s')
      | (Ok None, s') =>
          (Raise (SystemExit None),
           with_trace (trace s' ++ [EvLog ("Failed to connect to CARLA after "
                                             +:+ pretty n +:+ " attempts")]) s')
      | (Raise e, s') => (Raise e, s')
      | (OutOfFuel, s') => (OutOfFuel, s')
      end
    else (Raise AssertionError, s).
Proof.
  unfold setup, sys_exit, mbind, M_bind, mret, M_ret, raise, logging_debug, emit.
  destruct (town_in town); [| reflexivity]. cbv beta iota.
  destruct (setup_while (S (Z.to_nat n)) w town fps ts ct n 0 s)
    as [[[v |] | e |] s']; reflexivity.
Qed.

Lemma setup_summary w town fps ts ct n s r s' :
  wf s →
  setup w town fps ts ct n s = (r, s') →
  r ≠ OutOfFuel ∧ wf s' ∧
  heap s' !! environ_loc = heap s !! environ_loc ∧
  ∃ (evs : list event) (kl kc : nat),
    trace s' = trace s ++ evs ∧
    kc ≤ kl ∧ (Z.of_nat kl ≤ Z.max 0 n)%Z ∧
    popen_cmds evs
    = (λ i, server_cmd w (carla_root s) (2000 + i)) <$> seqZ 0 (Z.of_nat kl) ∧
    popen_envs evs = replicate kl (child_env (environ s)) ∧
    client_ports evs = (λ i, (2000 + i)%Z) <$> seqZ 0 (Z.of_nat kc).
Proof.
  intros Hwf. rewrite setup_unfold. destruct (town_in town).
  2: { intros [= <- <-]. summary_with Hwf (@eq_refl (option (gmap string string))).
       exists [], 0, 0. rewrite app_nil_r. repeat split; try done; lia. }
  destruct (setup_while _ _ _ _ _ _ _ _ _) as [r1 s1] eqn:Hloop.
  apply setup_while_summary in Hloop as (Hf & Hwf1 & Henv & evs & kl & kc & Htr
    & Hle & Hbound & Hcmds & Henvs & Hports); [| done | lia].
  rewrite Z.sub_0_r in Hbound.
  destruct r1 as [[v |] | e |]; [| | | done]; intros [= <- <-].
  - summary_with Hwf1 Henv. by exists evs, kl, kc.
  - split; [done |]. split; [by destruct Hwf1 |]. split; [done |].
    exists (evs ++ [EvLog ("Failed to connect to CARLA after "
                            +:+ pretty n +:+ " attempts")]), kl, kc.
    simpl. rewrite Htr, <- app_assoc.
    rewrite popen_cmds_app, popen_envs_app, client_ports_app, Hcmds, Henvs, Hports.
    simpl. rewrite !app_nil_r. repeat split; try done.
  - summary_with Hwf1 Henv. by exists evs, kl, kc.
Qed.

(** [setup] always comes to an answer: the fuel given to the loop is
    never used up. *)
Lemma setup_total w town fps ts ct n s :
  wf s → fst (setup w town fps ts ct n s) ≠ OutOfFuel.
Proof.
  intros Hwf. destruct (setup w town fps ts ct n s) as [r s'] eqn:Hrun.
  by apply setup_summary in Hrun as (? & _).
Qed.

Lemma union_started (P K : gset Z) (p : Z) :
  K ∪ ({[ p ]} ∪ P) = ({[ p ]} ∪ K) ∪ P.
Proof.
  apply set_eq. intros x. rewrite !elem_of_union, elem_of_singleton. tauto.
Qed.

(** [k] retryable failures in a row from [attempts = a]: the loop is then
    at [attempts = a + k], having launched and signalled [k] servers; each
    of the [k] exit hooks registered on the way is still in the registry,
    and each of the [k] children, never waited for, still has its entry. *)
Lemma setup_while_retries w town fps ts ct n (k : nat) :
  ∀ fuel a s,
    wf s →
    (Z.of_nat k ≤ Z.max 0 (n - a))%Z →
    (∀ i, (a ≤ i < a + Z.of_nat k)%Z →
          fails_retryably w town fps ts ct (environ s) i = true) →
    ∃ (s' : state) (evs : list event) (hs : list exit_handler),
      setup_while (k + fuel) w town fps ts ct n a s
      = setup_while fuel w town fps ts ct n (a + Z.of_nat k) s' ∧
      wf s' ∧ heap s' !! environ_loc = heap s !! environ_loc ∧
      trace s' = trace s ++ evs ∧
      length (popen_cmds evs) = k ∧
      length (client_ports evs) = k ∧
      length (kill_targets evs) = k ∧
      exithandlers s' = exithandlers s ++ hs ∧ length hs = k ∧
      procs s' = list_to_set (kill_targets evs) ∪ procs s.
Proof.
  induction k as [| k IH]; intros fuel a s Hwf Hbound Hfail.
  - exists s, [], []. rewrite Z.add_0_r, !app_nil_r. simpl.
    split; [done |]. split; [done |]. repeat (split; [done |]).
    simpl. by rewrite (left_id_L ∅ (∪)).
  - assert (Hlt : (a <? n)%Z = true) by (apply Z.ltb_lt; lia).
    destruct (fails_retryably_spec _ _ _ _ _ _ a (Hfail a ltac:(lia)))
      as (root & msg & Hroot & Hsh & Hsl & Htry).
    pose proof (setup_iteration_retry w town fps ts ct n a s root msg
                  Hwf Hroot Hsh Hsl Htry) as Hturn.
    set (e := RuntimeError msg) in *.
    set (s1 := retried w s (server_of w root a)
                 (retry_events w town fps ts ct n s root a e)) in *.
    assert (Hwf1 : wf s1) by by apply wf_retried.
    assert (Henv1 : heap s1 !! environ_loc = heap s !! environ_loc)
      by by apply heap_environ_retried.
    destruct (IH fuel (a + 1)%Z s1 Hwf1 ltac:(lia)) as (s' & evs & hs & Hrun & Hwf'
      & Henv' & Htr & Hlp & Hlc & Hlk & Hhs & Hlen & Hprocs).
    { intros i Hi. rewrite (environ_heap _ _ Henv1). apply Hfail. lia. }
    destruct (retry_events_shape w town fps ts ct n s root a e)
      as (R1 & R2 & R3 & R4).
    exists s', (retry_events w town fps ts ct n s root a e ++ evs),
      (registered w (S (next_id s)) (server_of w root a) :: hs).
    split.
    { change (S k + fuel) with (S (k + fuel)). cbn [setup_while].
      rewrite Hlt. unfold mbind at 1, M_bind at 1. rewrite Hturn.
      rewrite Hrun. by replace (a + Z.of_nat (S k))%Z with (a + 1 + Z.of_nat k)%Z by lia. }
    rewrite popen_cmds_app, client_ports_app, kill_targets_app, R1, R3, R4.
    split; [done |]. split; [by rewrite Henv' |].
    split; [rewrite Htr; simpl; by rewrite <- app_assoc |].
    simpl. repeat (split; [by f_equal |]).
    split; [rewrite Hhs; simpl; by rewrite <- app_assoc |].
    split; [by f_equal |].
    rewrite Hprocs. simpl. apply union_started.
Qed.

(** A turn that returns: the server started, the sleep returned and the
    [try] body ran to its [return]. *)
Lemma setup_iteration_returns w town fps ts ct n a s v s' :
  wf s →
  setup_iteration w town fps ts ct n a s = (Ok (inl v), s') →
  ∃ root,
    environ s !! "CARLA_ROOT" = Some root ∧
    try_result w town fps ct (2000 + a) (server_of w root a) = Ok v ∧
    trace s' = trace s ++ launch_events w s root ts n a
                       ++ try_events w town fps ct (2000 + a).
Proof.
  intros [_ Hnext Hlam]. rewrite setup_iteration_run by done.
  destruct (environ s !! "CARLA_ROOT") as [root |]; [| done]. cbv zeta.
  destruct (sh_spawnable w (server_cmd w root (2000 + a))); [| done].
  destruct (sleep_fault w ts); [done |].
  fold (server_of w root a).
  destruct (try_result w town fps ct (2000 + a) (server_of w root a))
    as [v' | e |] eqn:Htry; [| by destruct (is_RuntimeError e) | done].
  intros [= <- <-]. exists root. by rewrite Htry.
Qed.

(** When [setup]'s loop returns a value, it is the session of some attempt
    [a'] below the bound, and the trace ends with the events of that
    attempt's [try] body run in full. *)
Lemma setup_while_returns w town fps ts ct n :
  ∀ fuel a s v s',
    wf s →
    setup_while fuel w town fps ts ct n a s = (Ok (Some v), s') →
    ∃ (a' : Z) (root : string) (pre : list event),
      (a ≤ a' < n)%Z ∧
      environ s !! "CARLA_ROOT" = Some root ∧
      try_result w town fps ct (2000 + a') (server_of w root a') = Ok v ∧
      trace s' = trace s ++ pre ++ try_events w town fps ct (2000 + a').
Proof.
  induction fuel as [| fuel IH]; intros a s v s' Hwf; [done |].
  simpl. destruct (a <? n)%Z eqn:Hlt; [| done]. apply Z.ltb_lt in Hlt.
  unfold mbind at 1, M_bind at 1.
  destruct (setup_iteration w town fps ts ct n a s) as [r1 s1] eqn:Hit.
  destruct r1 as [[v1 | a1] | e |]; [| | done | done].
  - intros [= <- <-].
    apply setup_iteration_returns in Hit as (root & Hroot & Htry & Htr); [| done].
    exists a, root, (launch_events w s root ts n a). repeat split; try done; lia.
  - apply setup_iteration_summary in Hit as (_ & Hwf1 & Henv1 & evs & l & c & Htr
      & _ & _ & _ & _ & Hnext); [| done].
    destruct (Hnext a1 eq_refl) as (-> & _).
    intros Hrest. apply IH in Hrest as (a' & root & pre & Hrange & Hroot & Htry
      & Htr'); [| done].
    exists a', root, (evs ++ pre).
    rewrite (environ_heap _ _ Henv1) in Hroot.
    split; [lia |]. split; [done |]. split; [done |].
    by rewrite Htr', Htr, <- !app_assoc.
Qed.

(** A turn whose launch raises: the exception leaves the turn. *)
Lemma setup_iteration_spawn_error w town fps ts ct n a s :
  wf s →
  environ s !! "CARLA_ROOT" = None
  ∨ sh_spawnable w (server_cmd w (carla_root s) (2000 + a)) = false →
  ∃ e evs,
    setup_iteration w town fps ts ct n a s = (Raise e, prepared s evs) ∧
    is_RuntimeError e = false ∧
    length (popen_cmds evs) ≤ 1 ∧ client_ports evs = [] ∧ kill_targets evs = [].
Proof.
  intros [_ Hnext Hlam] Hcase. rewrite setup_iteration_run by done.
  unfold carla_root in Hcase.
  destruct (environ s !! "CARLA_ROOT") as [root |] eqn:Hroot.
  - destruct Hcase as [Hcase | Hcase]; [done |]. simpl in Hcase.
    cbv zeta. rewrite Hcase.
    eexists _, _. split; [reflexivity |]. simpl. repeat split; try done.
  - eexists _, _. split; [reflexivity |]. simpl. repeat split; try done. lia.
Qed.

(** ** The properties of [setup] *)










(** C10. [setup] leaves [os.environ], the environment of the calling
    process, as it found it, whether it returns or raises. *)
Theorem setup_keeps_environ w town fps ts ct n s :
  wf s →
  heap (snd (setup w town fps ts ct n s)) !! environ_loc = heap s !! environ_loc.
Proof.
  intros Hwf.
  destruct (setup w town fps ts ct n s) as [r s'] eqn:Hrun.
  by apply setup_summary in Hrun as (_ & _ & Henv & _).
Qed.

Lemma town_in_false town : town ∉ towns → town_in town = false.
Proof.
  intros Hnot. unfold town_in. apply not_true_is_false. intros Hex.
  apply existsb_exists in Hex as (t & Hin & Heq).
  apply String.eqb_eq in Heq as ->. apply Hnot. by apply list_elem_of_In.
Qed.

(** C6. A town outside the five of line 43 is rejected by the assertion:
    [setup] raises [AssertionError] from the state it was called in, so
    nothing was spawned or logged, and the exception is not one the retry
    handler catches. *)
Theorem setup_rejects_unknown_town w town fps ts ct n s :
  town ∉ towns →
  setup w town fps ts ct n s = (Raise AssertionError, s) ∧
  is_RuntimeError AssertionError = false.
Proof.
  intros Hnot. rewrite setup_unfold, (town_in_false _ Hnot). done.
Qed.

(** C2, amended. After [num_max_restarts] retryable failures in a row
    [setup] has launched, connected to and killed exactly that many
    servers, makes no further attempt and raises [SystemExit] with no
    code, which ends the program with exit status 0. *)
Theorem setup_exhausts_budget w town fps ts ct n s :
  wf s →
  town_in town = true →
  (∀ i, (0 ≤ i < n)%Z → fails_retryably w town fps ts ct (environ s) i = true) →
  ∃ s',
    setup w town fps ts ct n s = (Raise (SystemExit None), s') ∧
    exit_status (SystemExit None) = 0%Z ∧
    length (popen_cmds (events_since s s')) = Z.to_nat n ∧
    length (client_ports (events_since s s')) = Z.to_nat n ∧
    length (kill_targets (events_since s s')) = Z.to_nat n.
Proof.
  intros Hwf Htown Hfail.
  destruct (setup_while_retries w town fps ts ct n (Z.to_nat n) 1 0%Z s Hwf)
    as (s1 & evs & hs & Hrun & _ & _ & Htr & Hlp & Hlc & Hlk & _); [lia | |].
  { intros i Hi. apply Hfail. lia. }
  rewrite setup_unfold, Htown.
  replace (S (Z.to_nat n)) with (Z.to_nat n + 1) by lia.
  rewrite Hrun. cbn [setup_while].
  assert (Hge : (0 + Z.of_nat (Z.to_nat n) <? n)%Z = false)
    by (apply Z.ltb_ge; lia).
  rewrite Hge. cbn.
  eexists. split; [reflexivity |]. split; [reflexivity |].
  unfold events_since. cbn [trace with_trace]. rewrite Htr, <- app_assoc.
  rewrite drop_app_length.
  rewrite popen_cmds_app, client_ports_app, kill_targets_app, !length_app.
  cbn. lia.
Qed.


Lemma step_of_fps_positive fps :
  (1 ≤ fps ≤ 1000)%Z → (0 <? step_of_fps fps)%float = true.
Proof.
  intros Hfps.
  assert (Hall : forallb (λ z, (0 <? step_of_fps z)%float) (seqZ 1 1000) = true)
    by (vm_compute; reflexivity).
  rewrite forallb_forall in Hall. apply Hall. apply list_elem_of_In.
  apply elem_of_seqZ. lia.
Qed.

Lemma applied_settings_app t1 t2 :
  applied_settings (t1 ++ t2) = applied_settings t1 ++ applied_settings t2.
Proof. apply omap_app. Qed.

(** C7, amended. When [setup] returns, it returns the client and world of
    some attempt below the bound together with the frame id that
    [apply_settings] gave back, and the trace ends with that attempt's
    calls run in full.  The settings applied last are those that
    [carla.WorldSettings(synchronous_mode=True, fixed_delta_seconds=1.0 /
    fps)] builds: synchronous mode is on, and the fixed step is [1.0 / fps]
    when that is above zero, as it is for every [fps] from 1 to 1000;
    when it is not, no fixed step is set. *)
Theorem setup_success_configures w town fps ts ct n s client wd frame server s' :
  wf s →
  setup w town fps ts ct n s = (Ok (client, wd, frame, server), s') →
  ∃ (a : Z) (pre : list event) (st : WorldSettings),
    (0 ≤ a < n)%Z ∧
    client = {| client_host := "localhost"; client_port := 2000 + a |} ∧
    wd = {| world_client := client |} ∧
    frame = frame_of w (2000 + a) ∧
    fps ≠ 0%Z ∧
    events_since s s' = pre ++ session_events w town fps ct (2000 + a) ∧
    EvRpc (2000 + a) (apply_settings st)
    ∈ session_events w town fps ct (2000 + a) ∧
    last (applied_settings (events_since s s')) = Some st ∧
    synchronous_mode st = true ∧
    ((0 <? step_of_fps fps)%float = true →
     fixed_delta_seconds st = Some (step_of_fps fps)) ∧
    ((0 <? step_of_fps fps)%float = false → fixed_delta_seconds st = None) ∧
    ((1 ≤ fps ≤ 1000)%Z → fixed_delta_seconds st = Some (step_of_fps fps)).
Proof.
  intros Hwf. rewrite setup_unfold. destruct (town_in town); [| done].
  destruct (setup_while _ _ _ _ _ _ _ _ _) as [[[v |] | e |] s1] eqn:Hloop;
    try done.
  intros [= -> <-].
  apply setup_while_returns in Hloop as (a & root & pre & Hrange & Hroot & Htry
    & Htr); [| done].
  apply try_result_Ok in Htry as (Hv & Hfps & Hevs).
  injection Hv as -> -> -> ->.
  exists a, pre, (carla_WorldSettings true (step_of_fps fps)).
  rewrite Hevs in Htr.
  split; [done |]. split; [done |]. split; [done |]. split; [done |].
  split; [done |]. split; [by apply events_since_app |].
  split.
  { unfold session_events. do 6 apply list_elem_of_further.
    apply list_elem_of_here. }
  split.
  { rewrite (events_since_app _ _ _ Htr), applied_settings_app.
    change (applied_settings (session_events w town fps ct (2000 + a)))
      with [carla_WorldSettings true (step_of_fps fps)].
    by rewrite last_snoc. }
  split; [done |]. unfold carla_WorldSettings. cbn [fixed_delta_seconds].
  split; [by intros -> |]. split; [by intros -> |].
  intros Hpos. by rewrite (step_of_fps_positive _ Hpos).
Qed.

(** C8, amended. When the launch of attempt [k] raises, because
    [CARLA_ROOT] is not set or because the command interpreter cannot be
    started, the exception leaves [setup]: it is not a [RuntimeError], no
    client is opened and nothing is killed for this attempt, and no
    further server is launched. *)
Theorem spawn_error_propagates w town fps ts ct n s (k : nat) :
  wf s →
  town_in town = true →
  (Z.of_nat k < n)%Z →
  (∀ i, (0 ≤ i < Z.of_nat k)%Z →
        fails_retryably w town fps ts ct (environ s) i = true) →
  environ s !! "CARLA_ROOT" = None
  ∨ sh_spawnable w (server_cmd w (carla_root s) (2000 + Z.of_nat k)) = false →
  ∃ e s',
    setup w town fps ts ct n s = (Raise e, s') ∧
    is_RuntimeError e = false ∧
    length (popen_cmds (events_since s s')) ≤ S k ∧
    length (client_ports (events_since s s')) = k ∧
    length (kill_targets (events_since s s')) = k.
Proof.
  intros Hwf Htown Hlt Hfail Hcase.
  destruct (setup_while_retries w town fps ts ct n k (S (Z.to_nat n) - k) 0%Z s Hwf)
    as (s1 & evs & hs & Hrun & Hwf1 & Henv1 & Htr & Hlp & Hlc & Hlk & _);
    [lia | by intros i Hi; apply Hfail; lia |].
  assert (Hcase1 :
    environ s1 !! "CARLA_ROOT" = None
    ∨ sh_spawnable w (server_cmd w (carla_root s1) (2000 + (0 + Z.of_nat k))) = false).
  { unfold carla_root. rewrite (environ_heap _ _ Henv1), Z.add_0_l. exact Hcase. }
  destruct (setup_iteration_spawn_error w town fps ts ct n (0 + Z.of_nat k) s1
              Hwf1 Hcase1) as (e & evs1 & Hturn & He & Hp1 & Hc1 & Hk1).
  rewrite setup_unfold, Htown.
  replace (S (Z.to_nat n)) with (k + (S (Z.to_nat n) - k)) by lia.
  rewrite Hrun.
  destruct (S (Z.to_nat n) - k) as [| fuel] eqn:Hfuel; [lia |].
  cbn [setup_while].
  assert (Hlt' : (0 + Z.of_nat k <? n)%Z = true) by (apply Z.ltb_lt; lia).
  rewrite Hlt'. unfold mbind at 1, M_bind at 1. rewrite Hturn.
  exists e, (prepared s1 evs1). split; [reflexivity |]. split; [done |].
  unfold events_since. cbn [trace prepared]. rewrite Htr, <- app_assoc.
  rewrite drop_app_length.
  rewrite popen_cmds_app, client_ports_app, kill_targets_app, !length_app.
  rewrite Hc1, Hk1, Hlp, Hlc, Hlk. cbn. lia.
Qed.

(** ** The properties at concrete inputs *)


Lemma setup_keeps_environ_witness :
  wf (init_state ambient0) ∧
  heap (snd (setup posix_refused "Town01" 20 30 20 2 (init_state ambient0)))
    !! environ_loc
  = heap (init_state ambient0) !! environ_loc.
Proof.
  split; [apply wf_init |].
  apply (setup_keeps_environ posix_refused "Town01" 20 30 20 2 (init_state ambient0)).
  apply wf_init.
Defined.

Lemma setup_rejects_unknown_town_witness :
  ("Town10" ∉ towns) ∧
  setup posix_ok "Town10" 20 30 20 10 (init_state ambient0)
  = (Raise AssertionError, init_state ambient0) ∧
  is_RuntimeError AssertionError = false.
Proof.
  assert (Hnot : "Town10" ∉ towns).
  { apply (bool_decide_unpack _). vm_compute. exact I. }
  split; [exact Hnot |].
  apply (setup_rejects_unknown_town posix_ok "Town10" 20 30 20 10
           (init_state ambient0) Hnot).
Defined.

Lemma posix_refused_fails (i : Z) :
  (0 ≤ i < 2)%Z →
  fails_retryably posix_refused "Town01" 20 30 20 (environ (init_state ambient0)) i
  = true.
Proof.
  intros Hi. assert (i = 0 ∨ i = 1)%Z as [-> | ->] by lia; by vm_compute.
Qed.

Lemma setup_exhausts_budget_witness :
  ∃ s',
    setup posix_refused "Town01" 20 30 20 2 (init_state ambient0)
    = (Raise (SystemExit None), s') ∧
    exit_status (SystemExit None) = 0%Z ∧
    length (popen_cmds (events_since (init_state ambient0) s')) = Z.to_nat 2 ∧
    length (client_ports (events_since (init_state ambient0) s')) = Z.to_nat 2 ∧
    length (kill_targets (events_since (init_state ambient0) s')) = Z.to_nat 2.
Proof.
  apply (setup_exhausts_budget posix_refused "Town01" 20 30 20 2
           (init_state ambient0)).
  - apply wf_init.
  - reflexivity.
  - apply posix_refused_fails.
Defined.


Lemma setup_success_configures_witness :
  ∃ (a : Z) (pre : list event) (st : WorldSettings),
    (0 ≤ a < 3)%Z ∧
    {| client_host := "localhost"; client_port := 2001 |}
    = {| client_host := "localhost"; client_port := 2000 + a |} ∧
    1001%Z = frame_of posix_second_try (2000 + a) ∧
    events_since (init_state ambient0)
      (snd (setup posix_second_try "Town01" 20 30 20 3 (init_state ambient0)))
    = pre ++ session_events posix_second_try "Town01" 20 20 (2000 + a) ∧
    last (applied_settings
            (events_since (init_state ambient0)
               (snd (setup posix_second_try "Town01" 20 30 20 3
                       (init_state ambient0)))))
    = Some st ∧
    synchronous_mode st = true ∧
    fixed_delta_seconds st = Some 0x1.999999999999ap-5%float.
Proof.
  assert (Hrun : setup posix_second_try "Town01" 20 30 20 3 (init_state ambient0)
                 = (Ok ({| client_host := "localhost"; client_port := 2001 |},
                        {| world_client :=
                             {| client_host := "localhost"; client_port := 2001 |} |},
                        1001%Z, {| pid := 6959 |}),
                    snd (setup posix_second_try "Town01" 20 30 20 3
                           (init_state ambient0))))
    by by vm_compute.
  destruct (setup_success_configures posix_second_try "Town01" 20 30 20 3
              (init_state ambient0) _ _ _ _ _ (wf_init ambient0) Hrun)
    as (a & pre & st & Ha & Hc & _ & Hf & _ & Hev & _ & Hlast & Hsync & _ & _ & Hstep).
  exists a, pre, st.
  split; [exact Ha |]. split; [exact Hc |]. split; [exact Hf |].
  split; [exact Hev |]. split; [exact Hlast |]. split; [exact Hsync |].
  exact (Hstep ltac:(lia)).
Defined.

Lemma spawn_error_propagates_witness :
  ∃ e s',
    setup posix_no_shell "Town01" 20 30 20 3 (init_state ambient0) = (Raise e, s') ∧
    is_RuntimeError e = false ∧
    length (popen_cmds (events_since (init_state ambient0) s')) ≤ 1 ∧
    length (client_ports (events_since (init_state ambient0) s')) = 0 ∧
    length (kill_targets (events_since (init_state ambient0) s')) = 0.
Proof.
  apply (spawn_error_propagates posix_no_shell "Town01" 20 30 20 3
           (init_state ambient0) 0).
  - apply wf_init.
  - reflexivity.
  - lia.
  - intros i Hi. lia.
  - right. reflexivity.
Defined.

(** C2 as the sentence has it fails: the one attempt allowed fails
    retryably and [setup] ends the program, but with exit status 0, which
    signals success. *)
Lemma exhaustion_exits_with_status_zero :
  fails_retryably posix_refused "Town01" 20 30 20 (environ (init_state ambient0)) 0
  = true ∧
  fst (setup posix_refused "Town01" 20 30 20 1 (init_state ambient0))
  = Raise (SystemExit None) ∧
  ¬ exits_with_failure
      (fst (setup posix_refused "Town01" 20 30 20 1 (init_state ambient0))).
Proof.
  split; [by vm_compute |].
  assert (Hrun : fst (setup posix_refused "Town01" 20 30 20 1 (init_state ambient0))
                 = Raise (SystemExit None)) by by vm_compute.
  split; [exact Hrun |]. rewrite Hrun. intros (e & [= <-] & Hstatus).
  by apply Hstatus.
Qed.

(** The handler of line 93 takes [RuntimeError] only.  With [fps = 0] the
    division of line 88 raises [ZeroDivisionError], which is none: no call
    to the simulator has failed, the turn raises the error on, nothing is
    killed, and it leaves [setup]. *)
Lemma zero_fps_error_escapes :
  try_result posix_ok "Town01" 0 20 2000 (server_of posix_ok "/opt/carla" 0)
  = Raise ZeroDivisionError ∧
  fst (setup_iteration posix_ok "Town01" 0 30 20 3 0 (init_state ambient0))
  = Raise ZeroDivisionError ∧
  kill_targets
    (trace (snd (setup_iteration posix_ok "Town01" 0 30 20 3 0 (init_state ambient0))))
  = [] ∧
  fst (setup posix_ok "Town01" 0 30 20 3 (init_state ambient0))
  = Raise ZeroDivisionError ∧
  length (popen_cmds (trace (snd (setup posix_ok "Town01" 0 30 20 3
                                    (init_state ambient0))))) = 1.
Proof. repeat split; by vm_compute. Qed.


(** C7 as the sentence has it fails: with [fps = -20] the first attempt
    succeeds and [setup] returns its session, yet the settings it applied
    have no fixed step: [1.0 / fps] is [-0.05], which
    [carla.WorldSettings] does not keep.  So no settings with the step
    [1.0 / fps] were applied. *)
Lemma negative_fps_sets_no_step :
  fst (setup posix_ok "Town01" (-20) 30 20 3 (init_state ambient0))
  = Ok ({| client_host := "localhost"; client_port := 2000 |},
        {| world_client := {| client_host := "localhost"; client_port := 2000 |} |},
        frame_of posix_ok 2000, server_of posix_ok "/opt/carla" 0) ∧
  step_of_fps (-20) = (-0x1.999999999999ap-5)%float ∧
  applied_settings
    (trace (snd (setup posix_ok "Town01" (-20) 30 20 3 (init_state ambient0))))
  = [ {| synchronous_mode := true; fixed_delta_seconds := None |} ] ∧
  ∀ st,
    st ∈ applied_settings
           (trace (snd (setup posix_ok "Town01" (-20) 30 20 3 (init_state ambient0)))) →
    fixed_delta_seconds st ≠ Some (step_of_fps (-20)).
Proof.
  assert (Happlied :
    applied_settings
      (trace (snd (setup posix_ok "Town01" (-20) 30 20 3 (init_state ambient0))))
    = [ {| synchronous_mode := true; fixed_delta_seconds := None |} ])
    by by vm_compute.
  split; [by vm_compute |]. split; [by vm_compute |]. split; [exact Happlied |].
  intros st Hst. rewrite Happlied in Hst.
  apply list_elem_of_singleton in Hst as ->. done.
Qed.

(** C8 as the sentence has it fails: where the simulator is not installed
    the launch does not raise, since the command line goes to a shell; both
    attempts allowed are launched, time out, are killed, and [setup] ends
    on the exhausted budget. *)
Lemma missing_executable_is_retried :
  exe_exists posix_not_installed "/opt/carla/CarlaUE4.sh" = false ∧
  fst (setup posix_not_installed "Town01" 20 30 20 2 (init_state ambient0))
  = Raise (SystemExit None) ∧
  length (popen_cmds (trace (snd (setup posix_not_installed "Town01" 20 30 20 2
                                    (init_state ambient0))))) = 2 ∧
  length (kill_targets (trace (snd (setup posix_not_installed "Town01" 20 30 20 2
                                      (init_state ambient0))))) = 2.
Proof. repeat split; by vm_compute. Qed.

(** C1 on the code: the first attempt fails and is killed, the second one
    succeeds, and the registry then holds the exit hook of the killed
    server next to the one of the running server. *)
Theorem stale_hook_stays_registered :
  fst (setup posix_second_try "Town01" 20 30 20 3 (init_state ambient0))
  = Ok ({| client_host := "localhost"; client_port := 2001 |},
        {| world_client := {| client_host := "localhost"; client_port := 2001 |} |},
        1001%Z, {| pid := 6959 |}) ∧
  kill_targets (trace (snd (setup posix_second_try "Town01" 20 30 20 3
                              (init_state ambient0)))) = [6958%Z] ∧
  exithandlers (snd (setup posix_second_try "Town01" 20 30 20 3 (init_state ambient0)))
  = [ {| eh_func := os_killpg_fn; eh_args := [6958%Z; SIGKILL] |};
      {| eh_func := os_killpg_fn; eh_args := [6959%Z; SIGKILL] |} ].
Proof. repeat split; by vm_compute. Qed.

(** C4 on the code: the only attempt fails, its server is killed and its
    hook "unregistered", yet the hook is still in the registry when
    [setup] exits, and at interpreter exit it runs and kills the same
    process group a second time. *)
Theorem stale_hook_runs_at_exit :
  fst (setup posix_refused "Town01" 20 30 20 1 (init_state ambient0))
  = Raise (SystemExit None) ∧
  kill_targets (trace (snd (setup posix_refused "Town01" 20 30 20 1
                              (init_state ambient0)))) = [6958%Z] ∧
  exithandlers (snd (setup posix_refused "Town01" 20 30 20 1 (init_state ambient0)))
  = [ {| eh_func := os_killpg_fn; eh_args := [6958%Z; SIGKILL] |} ] ∧
  kill_targets
    (trace (run_exitfuncs (snd (setup posix_refused "Town01" 20 30 20 1
                                  (init_state ambient0)))))
  = [6958%Z; 6958%Z] ∧
  last (trace (run_exitfuncs (snd (setup posix_refused "Town01" 20 30 20 1
                                     (init_state ambient0)))))
  = Some (EvKill os_killpg_call 6958 SIGKILL).
Proof. repeat split; by vm_compute. Qed.

(** The same run on Windows: the lambda registered for the killed server
    (function object 2) is still registered after line 103 has
    "unregistered" another lambda (function object 3), next to the one of
    the running server; at exit both read [server] and kill the running
    server. *)
Lemma stale_lambda_stays_registered_nt :
  exithandlers (snd (setup nt_second_try "Town01" 20 30 20 3 (init_state ambient0)))
  = [ {| eh_func := lambda_fn 2; eh_args := [] |};
      {| eh_func := lambda_fn 5; eh_args := [] |} ] ∧
  kill_targets (trace (snd (setup nt_second_try "Town01" 20 30 20 3
                              (init_state ambient0)))) = [6479%Z] ∧
  kill_targets
    (trace (run_exitfuncs (snd (setup nt_second_try "Town01" 20 30 20 3
                                  (init_state ambient0)))))
  = [6479%Z; 6480%Z; 6480%Z].
Proof. repeat split; by vm_compute. Qed.

(** ** The loop as a relation *)

Lemma setup_iteration_turn w town fps ts ct n a s :
  wf s →
  turn w town fps ts ct n a s
    (fst (setup_iteration w town fps ts ct n a s))
    (snd (setup_iteration w town fps ts ct n a s)).
Proof.
  intros [_ Hnext Hlam]. rewrite setup_iteration_run by done.
  destruct (environ s !! "CARLA_ROOT") as [root |] eqn:Hroot;
    [| by apply turn_no_root].
  cbv zeta.
  destruct (sh_spawnable w (server_cmd w root (2000 + a))) eqn:Hsh;
    [| by apply turn_no_shell].
  fold (server_of w root a).
  destruct (sleep_fault w ts) as [e |] eqn:Hsl;
    [by apply turn_sleep_raises |].
  pose proof (try_result_fuel w town fps ct (2000 + a) (server_of w root a)) as Hf.
  destruct (try_result w town fps ct (2000 + a) (server_of w root a))
    as [v | e |] eqn:Htry; [| | done].
  - by apply turn_returns.
  - destruct (is_RuntimeError e) eqn:He.
    + by apply turn_retries.
    + by apply turn_escapes.
Qed.

Lemma turn_wf w town fps ts ct n a s r s' :
  wf s → turn w town fps ts ct n a s r s' → wf s'.
Proof.
  intros Hwf Ht.
  destruct Ht; by first [apply wf_prepared | apply wf_launched | apply wf_retried].
Qed.

(** Every run of [setup_while] with enough fuel is a run of the loop. *)
Lemma setup_while_loop_run w town fps ts ct n :
  ∀ fuel a s,
    wf s →
    Z.to_nat (n - a) < fuel →
    loop_run w town fps ts ct n a s
      (fst (setup_while fuel w town fps ts ct n a s))
      (snd (setup_while fuel w town fps ts ct n a s)).
Proof.
  induction fuel as [| fuel IH]; intros a s Hwf Hfuel; [lia |].
  cbn [setup_while]. destruct (a <? n)%Z eqn:Hlt.
  2: { apply Z.ltb_ge in Hlt. by apply run_test_fails. }
  apply Z.ltb_lt in Hlt.
  pose proof (setup_iteration_turn w town fps ts ct n a s Hwf) as Ht.
  unfold mbind at 1 2, M_bind at 1 2.
  destruct (setup_iteration w town fps ts ct n a s) as [r1 s1].
  cbn [fst snd] in Ht.
  inversion Ht; subst; cbn [fst snd mret M_ret];
    try (by eapply run_raises); try (by eapply run_returns).
  eapply run_goes_on; [done | done | exact Ht |].
  apply IH; [by eapply turn_wf | lia].
Qed.

Lemma kill_events_app t1 t2 : kill_events (t1 ++ t2) = kill_events t1 ++ kill_events t2.
Proof. apply omap_app. Qed.

Lemma kill_events_try_events w town fps ct port :
  kill_events (try_events w town fps ct port) = [].
Proof.
  unfold try_events. unfold_try. run_monad. split_matches; reflexivity.
Qed.

Lemma launch_try_events_shape w town fps ts ct n s root a :
  popen_cmds (launch_events w s root ts n a ++ try_events w town fps ct (2000 + a))
  = [server_cmd w root (2000 + a)] ∧
  kill_events (launch_events w s root ts n a ++ try_events w town fps ct (2000 + a))
  = [].
Proof.
  destruct (try_events_shape w town fps ct (2000 + a)) as (H1 & _).
  rewrite popen_cmds_app, kill_events_app, H1, kill_events_try_events.
  split; reflexivity.
Qed.

Lemma retry_kill_events w town fps ts ct n s root a e :
  kill_events (retry_events w town fps ts ct n s root a e)
  = [kill_of_cmd w (server_cmd w root (2000 + a))].
Proof.
  unfold retry_events, except_events.
  rewrite !kill_events_app, kill_events_try_events.
  unfold kill_of_cmd, server_of, kill_event. by destruct (on_nt w).
Qed.

(** The events a turn appends, for each way it can end. *)
Lemma turn_events w town fps ts ct n a s r s' :
  turn w town fps ts ct n a s r s' →
  ∃ evs,
    trace s' = trace s ++ evs ∧
    match r with
    | Ok (inr _) =>
        ∃ cmd, popen_cmds evs = [cmd] ∧ kill_events evs = [kill_of_cmd w cmd]
    | _ => kill_events evs = [] ∧ length (popen_cmds evs) ≤ 1
    end.
Proof.
  intros Ht. destruct Ht.
  - eexists. split; [reflexivity |]. split; [done | simpl; lia].
  - eexists. split; [reflexivity |]. split; [done | simpl; lia].
  - eexists. split; [reflexivity |]. split; [done | simpl; lia].
  - destruct (launch_try_events_shape w town fps ts ct n s root a) as [Sp Sk].
    eexists. split; [reflexivity |]. rewrite Sp, Sk. split; [done | simpl; lia].
  - destruct (retry_events_shape w town fps ts ct n s root a e) as (Sp & _).
    eexists. split; [reflexivity |]. eexists. split; [exact Sp |].
    apply retry_kill_events.
  - destruct (launch_try_events_shape w town fps ts ct n s root a) as [Sp Sk].
    eexists. split; [reflexivity |]. rewrite Sp, Sk. split; [done | simpl; lia].
Qed.

Lemma loop_run_kills w town fps ts ct n a s r s' :
  loop_run w town fps ts ct n a s r s' →
  ∃ (evs : list event) (k : nat),
    trace s' = trace s ++ evs ∧
    kill_events evs = kill_of_cmd w <$> take k (popen_cmds evs) ∧
    k ≤ length (popen_cmds evs) ≤ S k.
Proof.
  induction 1 as [a s Hge | a s v s' Hlt Hwf Ht | a s e s' Hlt Hwf Ht
                 | a s s1 r s' Hlt Hwf Ht Hrun IH].
  - exists [], 0. rewrite app_nil_r. repeat split; simpl; try done; lia.
  - apply turn_events in Ht as (evs & Htr & Hk & Hp).
    exists evs, 0. rewrite Hk, take_0. repeat split; try done; lia.
  - apply turn_events in Ht as (evs & Htr & Hk & Hp).
    exists evs, 0. rewrite Hk, take_0. repeat split; try done; lia.
  - apply turn_events in Ht as (evs1 & Htr1 & cmd & Hp1 & Hk1).
    destruct IH as (evs2 & k & Htr2 & Hk2 & Hlen).
    exists (evs1 ++ evs2), (S k).
    rewrite Htr2, Htr1, <- app_assoc, popen_cmds_app, kill_events_app, Hp1, Hk1, Hk2.
    repeat split; simpl; try done; lia.
Qed.

Lemma setup_loop_run w town fps ts ct n s :
  wf s →
  loop_run w town fps ts ct n 0 s
    (fst (setup_while (S (Z.to_nat n)) w town fps ts ct n 0 s))
    (snd (setup_while (S (Z.to_nat n)) w town fps ts ct n 0 s)).
Proof. intros Hwf. apply setup_while_loop_run; [done | lia]. Qed.

(** What [setup] leaves, in terms of what its loop leaves: the same state,
    but for the log line of line 105 when the loop ran out of attempts. *)
Lemma setup_after_loop w town fps ts ct n s :
  town_in town = true →
  ∃ tail,
    let s1 := snd (setup_while (S (Z.to_nat n)) w town fps ts ct n 0 s) in
    snd (setup w town fps ts ct n s) = with_trace (trace s1 ++ tail) s1 ∧
    popen_cmds tail = [] ∧ kill_events tail = [] ∧ client_ports tail = [].
Proof.
  intros Htown. rewrite setup_unfold, Htown.
  destruct (setup_while _ _ _ _ _ _ _ _ _) as [[[v |] | e |] s1]; cbn [snd].
  - exists []. by rewrite with_trace_trace.
  - by eexists.
  - exists []. by rewrite with_trace_trace.
  - exists []. by rewrite with_trace_trace.
Qed.

(** ** The port of every attempt *)

(** A turn that finds [CARLA_ROOT] launches the command line of its port,
    and opens its client on that port when the server starts and the sleep
    returns. *)
Lemma turn_first w town fps ts ct n a s r s' root :
  turn w town fps ts ct n a s r s' →
  environ s !! "CARLA_ROOT" = Some root →
  ∃ evs,
    trace s' = trace s ++ evs ∧
    popen_cmds evs = [server_cmd w root (2000 + a)] ∧
    (sh_spawnable w (server_cmd w root (2000 + a)) = true →
     sleep_fault w ts = None →
     client_ports evs = [(2000 + a)%Z]).
Proof.
  intros Ht Hroot.
  assert (Hlt : ∀ root',
    popen_cmds (launch_events w s root' ts n a ++ try_events w town fps ct (2000 + a))
    = [server_cmd w root' (2000 + a)] ∧
    client_ports (launch_events w s root' ts n a ++ try_events w town fps ct (2000 + a))
    = [(2000 + a)%Z]).
  { intros root'.
    destruct (launch_try_events_shape w town fps ts ct n s root' a) as [Sp _].
    destruct (try_events_shape w town fps ct (2000 + a)) as (_ & _ & _ & Sc).
    split; [exact Sp |]. by rewrite client_ports_app, Sc. }
  destruct Ht as [Hnone | root' Hroot' Hsh | root' e Hroot' Hsh Hsl
    | root' v Hroot' Hsh Hsl Htry | root' e Hroot' Hsh Hsl Htry He
    | root' e Hroot' Hsh Hsl Htry He]; [congruence | | | | |];
    assert (root' = root) as -> by congruence.
  - eexists. split; [reflexivity |]. split; [done |]. congruence.
  - eexists. split; [reflexivity |]. split; [done |]. congruence.
  - destruct (Hlt root) as [Sp Sc]. eexists. split; [reflexivity |]. done.
  - destruct (retry_events_shape w town fps ts ct n s root a e) as (Sp & _ & Sc & _).
    eexists. split; [reflexivity |]. done.
  - destruct (Hlt root) as [Sp Sc]. eexists. split; [reflexivity |]. done.
Qed.

(** A run of the loop that makes a turn begins with the launch, and the
    connection, of that turn. *)
Lemma loop_run_first w town fps ts ct n a s r s' root :
  loop_run w town fps ts ct n a s r s' →
  (a < n)%Z →
  environ s !! "CARLA_ROOT" = Some root →
  ∃ evs more,
    trace s' = trace s ++ evs ++ more ∧
    popen_cmds evs = [server_cmd w root (2000 + a)] ∧
    (sh_spawnable w (server_cmd w root (2000 + a)) = true →
     sleep_fault w ts = None →
     client_ports evs = [(2000 + a)%Z]).
Proof.
  intros Hrun Hlt Hroot.
  destruct Hrun as [a s Hge | a s v s' _ Hwf Ht | a s e s' _ Hwf Ht
                   | a s s1 r s' _ Hwf Ht Hrest]; [lia | | |].
  - destruct (turn_first _ _ _ _ _ _ _ _ _ _ _ Ht Hroot) as (evs & Htr & Hp & Hc).
    exists evs, []. by rewrite app_nil_r.
  - destruct (turn_first _ _ _ _ _ _ _ _ _ _ _ Ht Hroot) as (evs & Htr & Hp & Hc).
    exists evs, []. by rewrite app_nil_r.
  - destruct (turn_first _ _ _ _ _ _ _ _ _ _ _ Ht Hroot) as (evs & Htr & Hp & Hc).
    destruct (loop_run_kills _ _ _ _ _ _ _ _ _ _ Hrest) as (more & _ & Htr' & _).
    exists evs, more. by rewrite Htr', Htr, <- app_assoc.
Qed.

(** When the [k] attempts before it ended in the handler, attempt [k]
    takes place: it is the launch number [k] of the run, with the command
    line of port [2000 + k], and the connection number [k], to that
    port. *)
Lemma setup_reaches_attempt w town fps ts ct n s (k : nat) root :
  wf s →
  town_in town = true →
  (Z.of_nat k < n)%Z →
  (∀ i, (0 ≤ i < Z.of_nat k)%Z →
        fails_retryably w town fps ts ct (environ s) i = true) →
  environ s !! "CARLA_ROOT" = Some root →
  popen_cmds (events_since s (snd (setup w town fps ts ct n s))) !! k
  = Some (server_cmd w root (2000 + Z.of_nat k)) ∧
  (sh_spawnable w (server_cmd w root (2000 + Z.of_nat k)) = true →
   sleep_fault w ts = None →
   client_ports (events_since s (snd (setup w town fps ts ct n s))) !! k
   = Some (2000 + Z.of_nat k)%Z).
Proof.
  intros Hwf Htown Hlt Hfail Hroot.
  destruct (setup_while_retries w town fps ts ct n k (S (Z.to_nat n) - k) 0%Z s Hwf)
    as (s1 & evs1 & hs & Hrun & Hwf1 & Henv1 & Htr1 & Hlp & Hlc & _);
    [lia | by intros i Hi; apply Hfail; lia |].
  assert (Hroot1 : environ s1 !! "CARLA_ROOT" = Some root)
    by by rewrite (environ_heap _ _ Henv1).
  pose proof (setup_while_loop_run w town fps ts ct n (S (Z.to_nat n) - k)
                (0 + Z.of_nat k) s1 Hwf1 ltac:(lia)) as Hloop.
  rewrite <- Hrun in Hloop.
  replace (k + (S (Z.to_nat n) - k)) with (S (Z.to_nat n)) in Hloop by lia.
  apply (loop_run_first _ _ _ _ _ _ _ _ _ _ root) in Hloop
    as (evs2 & more & Htr2 & Hp2 & Hc2); [| lia | done].
  rewrite Z.add_0_l in Hp2, Hc2.
  destruct (setup_after_loop w town fps ts ct n s Htown) as (tail & Hs & _).
  cbv zeta in Hs. rewrite Hs.
  assert (Hev : events_since s
                  (with_trace
                     (trace (snd (setup_while (S (Z.to_nat n)) w town fps ts ct n 0 s))
                      ++ tail)
                     (snd (setup_while (S (Z.to_nat n)) w town fps ts ct n 0 s)))
                = evs1 ++ evs2 ++ more ++ tail).
  { apply events_since_app. cbn [trace with_trace].
    by rewrite Htr2, Htr1, <- !app_assoc. }
  rewrite Hev, !popen_cmds_app, !client_ports_app. split.
  - rewrite lookup_app_r by lia. rewrite Hlp, Nat.sub_diag, Hp2. done.
  - intros Hsh Hsl. rewrite lookup_app_r by lia.
    rewrite Hlc, Nat.sub_diag, (Hc2 Hsh Hsl). done.
Qed.

(** C3. Attempt [i] of a run uses port [2000 + i].  Whatever is launched
    or connected to has that port: the [i]-th command line launched names
    port [2000 + i], the [i]-th client is opened on port [2000 + i], [i] is
    below [num_max_restarts], and the ports strictly increase, so none is
    used twice in a run.  And the attempts do take place: when the [k]
    attempts before it ended in the handler, attempt [k < num_max_restarts]
    launches the command line of port [2000 + k], and connects to port
    [2000 + k] once the server has started and the sleep has returned. *)
Theorem setup_ports w town fps ts ct n s :
  wf s →
  let evs := events_since s (snd (setup w town fps ts ct n s)) in
  (∀ (i : nat) (cmd : string),
     popen_cmds evs !! i = Some cmd →
     (Z.of_nat i < n)%Z ∧ cmd = server_cmd w (carla_root s) (2000 + Z.of_nat i)) ∧
  (∀ (i : nat) (port : Z),
     client_ports evs !! i = Some port →
     (Z.of_nat i < n)%Z ∧ port = (2000 + Z.of_nat i)%Z) ∧
  (∀ (i j : nat) (p q : Z),
     i < j → client_ports evs !! i = Some p → client_ports evs !! j = Some q →
     (p < q)%Z) ∧
  (∀ (k : nat) (root : string),
     town_in town = true →
     (Z.of_nat k < n)%Z →
     (∀ i, (0 ≤ i < Z.of_nat k)%Z →
           fails_retryably w town fps ts ct (environ s) i = true) →
     environ s !! "CARLA_ROOT" = Some root →
     popen_cmds evs !! k = Some (server_cmd w root (2000 + Z.of_nat k)) ∧
     (sh_spawnable w (server_cmd w root (2000 + Z.of_nat k)) = true →
      sleep_fault w ts = None →
      client_ports evs !! k = Some (2000 + Z.of_nat k)%Z)).
Proof.
  intros Hwf evs. subst evs.
  pose proof (setup_reaches_attempt w town fps ts ct n s) as Hreach.
  destruct (setup w town fps ts ct n s) as [r s'] eqn:Hrun.
  apply setup_summary in Hrun as (_ & _ & _ & evs & kl & kc & Htr & Hle & Hbound
    & Hcmds & _ & Hports); [| done].
  cbn [snd] in *. rewrite (events_since_app _ _ _ Htr) in *.
  rewrite Hcmds, Hports in *.
  assert (Hport : ∀ (i : nat) (port : Z),
            ((λ i, (2000 + i)%Z) <$> seqZ 0 (Z.of_nat kc)) !! i = Some port →
            (Z.of_nat i < n)%Z ∧ port = (2000 + Z.of_nat i)%Z).
  { intros i port Hi. rewrite list_lookup_fmap in Hi.
    destruct (seqZ 0 (Z.of_nat kc) !! i) as [m |] eqn:Hm; [| done].
    apply lookup_seqZ in Hm as [-> Hm]. injection Hi as <-. lia. }
  split; [| split; [| split]].
  - intros i cmd Hi. rewrite list_lookup_fmap in Hi.
    destruct (seqZ 0 (Z.of_nat kl) !! i) as [m |] eqn:Hm; [| done].
    apply lookup_seqZ in Hm as [-> Hm]. injection Hi as <-.
    split; [lia | done].
  - exact Hport.
  - intros i j p q Hij Hi Hj.
    apply Hport in Hi as [_ ->]. apply Hport in Hj as [_ ->]. lia.
  - intros k root Htown Hlt Hfail Hroot. by apply Hreach.
Qed.

(** X1. Every kill [setup] issues is the platform's kill of a server it
    launched in this run: the kills are those of the first [k] command
    lines launched, in launch order, and at most the last launch is left
    without one. *)
Theorem setup_kills_own_servers w town fps ts ct n s :
  wf s →
  let evs := events_since s (snd (setup w town fps ts ct n s)) in
  ∃ k : nat,
    kill_events evs = kill_of_cmd w <$> take k (popen_cmds evs) ∧
    k ≤ length (popen_cmds evs) ≤ S k.
Proof.
  intros Hwf evs. subst evs. destruct (town_in town) eqn:Htown.
  2: { rewrite setup_unfold, Htown. cbn [snd]. exists 0.
       unfold events_since. rewrite drop_all. simpl. split; [done | lia]. }
  destruct (setup_after_loop w town fps ts ct n s Htown)
    as (tail & Hs & Hp & Hk & _).
  cbv zeta in Hs. rewrite Hs.
  destruct (loop_run_kills _ _ _ _ _ _ _ _ _ _ (setup_loop_run w town fps ts ct n s Hwf))
    as (evs & k & Htr & Hkills & Hlen).
  exists k. unfold events_since. cbn [trace with_trace].
  rewrite Htr, <- app_assoc, drop_app_length.
  rewrite popen_cmds_app, kill_events_app, Hp, Hk, !app_nil_r. done.
Qed.

Lemma started_app w l1 l2 : started w (l1 ++ l2) = started w l1 ++ started w l2.
Proof. apply filter_app. Qed.

Lemma started_one w cmd : sh_spawnable w cmd = true → started w [cmd] = [cmd].
Proof.
  intros H. unfold started. rewrite filter_cons.
  destruct (decide (sh_spawnable w cmd = true)); done.
Qed.

Lemma started_none w cmd : sh_spawnable w cmd = false → started w [cmd] = [].
Proof.
  intros H. unfold started. rewrite filter_cons.
  destruct (decide (sh_spawnable w cmd = true)); [congruence | done].
Qed.

(** The registry, the kills and [server] after a turn, for each way it
    can end. *)
Lemma turn_state w town fps ts ct n a s r s' :
  turn w town fps ts ct n a s r s' →
  ∃ evs,
    trace s' = trace s ++ evs ∧
    match r with
    | Ok (inr _) =>
        ∃ cmd i,
          popen_cmds evs = [cmd] ∧ sh_spawnable w cmd = true ∧
          exithandlers s'
          = exithandlers s ++ [registered w i {| pid := spawn_pid w cmd |}] ∧
          kill_events evs = [kill_of_cmd w cmd]
    | _ =>
        (started w (popen_cmds evs) = [] ∧ exithandlers s' = exithandlers s)
        ∨ ∃ cmd i,
            popen_cmds evs = [cmd] ∧ sh_spawnable w cmd = true ∧
            exithandlers s'
            = exithandlers s ++ [registered w i {| pid := spawn_pid w cmd |}] ∧
            server_var s' = Some {| pid := spawn_pid w cmd |}
    end.
Proof.
  intros Ht. destruct Ht as [Hroot | root Hroot Hsh | root e Hroot Hsh Hsl
    | root v Hroot Hsh Hsl Htry | root e Hroot Hsh Hsl Htry He
    | root e Hroot Hsh Hsl Htry He].
  - eexists. split; [reflexivity |]. by left.
  - eexists. split; [reflexivity |]. left. split; [| done].
    simpl. by apply started_none.
  - eexists. split; [reflexivity |]. right. by eexists _, _.
  - destruct (launch_try_events_shape w town fps ts ct n s root a) as [Sp Sk].
    eexists. split; [reflexivity |]. right. by eexists _, _.
  - destruct (retry_events_shape w town fps ts ct n s root a e) as (Sp & _).
    eexists. split; [reflexivity |]. eexists _, _.
    split; [exact Sp |]. split; [done |]. split; [reflexivity |].
    apply retry_kill_events.
  - destruct (launch_try_events_shape w town fps ts ct n s root a) as [Sp Sk].
    eexists. split; [reflexivity |]. right. by eexists _, _.
Qed.

Lemma registered_posix w i cmd :
  on_nt w = false → registered w i {| pid := spawn_pid w cmd |} = posix_hook w cmd.
Proof. intros H. unfold registered. by rewrite H. Qed.

Lemma registered_nt w i server :
  on_nt w = true →
  registered w i server = {| eh_func := lambda_fn i; eh_args := [] |}.
Proof. intros H. unfold registered. by rewrite H. Qed.

Lemma loop_run_registry w town fps ts ct n a s r s' :
  loop_run w town fps ts ct n a s r s' →
  ∃ (evs : list event) (hs : list exit_handler),
    trace s' = trace s ++ evs ∧
    exithandlers s' = exithandlers s ++ hs ∧
    length hs = length (started w (popen_cmds evs)) ∧
    (on_nt w = false → hs = posix_hook w <$> started w (popen_cmds evs)) ∧
    (on_nt w = true →
     Forall (λ h, eh_args h = [] ∧ ∃ i, eh_func h = lambda_fn i) hs).
Proof.
  assert (Hlast : ∀ a s r s',
    turn w town fps ts ct n a s r s' →
    (∀ a', r ≠ Ok (inr a')) →
    ∃ (evs : list event) (hs : list exit_handler),
      trace s' = trace s ++ evs ∧
      exithandlers s' = exithandlers s ++ hs ∧
      length hs = length (started w (popen_cmds evs)) ∧
      (on_nt w = false → hs = posix_hook w <$> started w (popen_cmds evs)) ∧
      (on_nt w = true →
       Forall (λ h, eh_args h = [] ∧ ∃ i, eh_func h = lambda_fn i) hs)).
  { intros a0 s0 r0 s0' Ht Hr. apply turn_state in Ht as (evs & Htr & Hcase).
    assert (Hcase' :
      (started w (popen_cmds evs) = [] ∧ exithandlers s0' = exithandlers s0)
      ∨ ∃ cmd i,
          popen_cmds evs = [cmd] ∧ sh_spawnable w cmd = true ∧
          exithandlers s0'
          = exithandlers s0 ++ [registered w i {| pid := spawn_pid w cmd |}] ∧
          server_var s0' = Some {| pid := spawn_pid w cmd |}).
    { destruct r0 as [[v | a'] | e |]; try exact Hcase. by destruct (Hr a'). }
    destruct Hcase' as [(Hst & Hh) | (cmd & i & Hp & Hsh & Hh & _)].
    - exists evs, []. rewrite Hst, app_nil_r. repeat split; try done.
    - exists evs, [registered w i {| pid := spawn_pid w cmd |}].
      rewrite Hp, (started_one _ _ Hsh). repeat split; try done.
      + intros Hnt. by rewrite (registered_posix _ _ _ Hnt).
      + intros Hnt. rewrite (registered_nt _ _ _ Hnt).
        apply Forall_singleton. split; [done | by eexists]. }
  induction 1 as [a s Hge | a s v s' Hlt Hwf Ht | a s e s' Hlt Hwf Ht
                 | a s s1 r s' Hlt Hwf Ht Hrun IH].
  - exists [], []. rewrite !app_nil_r. repeat split; try done.
  - by apply (Hlast _ _ _ _ Ht).
  - by apply (Hlast _ _ _ _ Ht).
  - apply turn_state in Ht as (evs1 & Htr1 & cmd & i & Hp & Hsh & Hh & _).
    destruct IH as (evs2 & hs & Htr2 & Hh2 & Hlen & Hposix & Hnt).
    exists (evs1 ++ evs2), (registered w i {| pid := spawn_pid w cmd |} :: hs).
    rewrite Htr2, Htr1, Hh2, Hh, <- !app_assoc, popen_cmds_app, started_app, Hp.
    rewrite (started_one _ _ Hsh). repeat split; try done.
    + simpl. by rewrite Hlen.
    + intros H. rewrite (registered_posix _ _ _ H), (Hposix H). done.
    + intros H. apply Forall_cons. split; [| by apply Hnt].
      rewrite (registered_nt _ _ _ H). split; [done | by eexists].
Qed.

(** X2. [setup] never removes an entry from the [atexit] registry: after
    any run the registry is the one before followed by one entry for each
    server that started, in launch order; on POSIX the entry for a server
    is [os.killpg(pid, SIGKILL)], on Windows it is a lambda without
    arguments. *)
Theorem setup_only_adds_hooks w town fps ts ct n s :
  wf s →
  let s' := snd (setup w town fps ts ct n s) in
  ∃ hs : list exit_handler,
    exithandlers s' = exithandlers s ++ hs ∧
    length hs = length (started w (popen_cmds (events_since s s'))) ∧
    (on_nt w = false →
     hs = posix_hook w <$> started w (popen_cmds (events_since s s'))) ∧
    (on_nt w = true →
     Forall (λ h, eh_args h = [] ∧ ∃ i, eh_func h = lambda_fn i) hs).
Proof.
  intros Hwf s'. subst s'. destruct (town_in town) eqn:Htown.
  2: { rewrite setup_unfold, Htown. cbn [snd]. exists [].
       unfold events_since. rewrite drop_all, app_nil_r. by repeat split. }
  destruct (setup_after_loop w town fps ts ct n s Htown)
    as (tail & Hs & Hp & _ & _).
  cbv zeta in Hs. rewrite Hs.
  destruct (loop_run_registry _ _ _ _ _ _ _ _ _ _
              (setup_loop_run w town fps ts ct n s Hwf))
    as (evs & hs & Htr & Hh & Hlen & Hposix & Hnt).
  exists hs. unfold events_since. cbn [trace exithandlers with_trace].
  rewrite Htr, <- app_assoc, drop_app_length.
  rewrite popen_cmds_app, Hp, app_nil_r. done.
Qed.

(** ** Interpreter exit after a run *)

Lemma elem_of_kill_events e t :
  e ∈ kill_events t ↔ e ∈ t ∧ ∃ fn p sig, e = EvKill fn p sig.
Proof.
  unfold kill_events. rewrite list_elem_of_omap. split.
  - intros (x & Hx & Heq). destruct x; try done. injection Heq as <-.
    split; [done |]. by eexists _, _, _.
  - intros (He & fn & p & sig & ->). by eexists.
Qed.

(** Calling a registry entry sends at most a kill and leaves the binding
    of [server] alone; a [killpg] entry sends its kill, and a lambda sends
    the kill of the server that [server] is bound to when it runs. *)
Lemma call_handler_events h s :
  ∃ evs,
    trace (snd (call_handler h s)) = trace s ++ evs ∧
    server_var (snd (call_handler h s)) = server_var s ∧
    (∀ p sig, h = {| eh_func := os_killpg_fn; eh_args := [p; sig] |} →
              EvKill os_killpg_call p sig ∈ evs) ∧
    (∀ i server, h = {| eh_func := lambda_fn i; eh_args := [] |} →
                 server_var s = Some server →
                 EvKill os_kill_fn (pid server) SIGTERM ∈ evs).
Proof.
  assert (Hkill : ∀ fn p sig,
    trace (snd (kill_with fn p sig s)) = trace s ++ [EvKill fn p sig] ∧
    server_var (snd (kill_with fn p sig s)) = server_var s).
  { intros fn p sig. unfold kill_with. by destruct (decide (p ∈ procs s)). }
  destruct h as [f args]. unfold call_handler. cbn [eh_func eh_args].
  destruct f as [| i], args as [| x [| y [| z l]]];
    try (exists []; rewrite app_nil_r; by repeat split).
  - destruct (Hkill os_killpg_call x y) as [Ht Hv].
    eexists. split; [exact Ht |]. split; [exact Hv |]. split; [| done].
    intros p sig [= -> ->]. apply list_elem_of_here.
  - destruct (server_var s) as [server |] eqn:Hsv.
    + destruct (Hkill os_kill_fn (pid server) SIGTERM) as [Ht Hv].
      eexists. split; [exact Ht |].
      split; [unfold os_kill; by rewrite Hv |]. split; [done |].
      intros i' server' _ [= <-]. apply list_elem_of_here.
    + exists []. rewrite app_nil_r. by repeat split.
Qed.

Lemma run_handlers_events (l : list exit_handler) :
  ∀ s,
    ∃ evs,
      trace (foldl (λ st h, snd (call_handler h st)) s l) = trace s ++ evs ∧
      server_var (foldl (λ st h, snd (call_handler h st)) s l) = server_var s ∧
      (∀ p sig, {| eh_func := os_killpg_fn; eh_args := [p; sig] |} ∈ l →
                EvKill os_killpg_call p sig ∈ evs) ∧
      (∀ i server, {| eh_func := lambda_fn i; eh_args := [] |} ∈ l →
                   server_var s = Some server →
                   EvKill os_kill_fn (pid server) SIGTERM ∈ evs).
Proof.
  induction l as [| h l IH]; intros s.
  - exists []. rewrite app_nil_r. repeat split; try done.
    + intros p sig Hin. by apply elem_of_nil in Hin.
    + intros i server Hin. by apply elem_of_nil in Hin.
  - simpl. destruct (call_handler_events h s) as (evs1 & Ht1 & Hv1 & Hg1 & Hl1).
    destruct (IH (snd (call_handler h s))) as (evs2 & Ht2 & Hv2 & Hg2 & Hl2).
    exists (evs1 ++ evs2). rewrite Ht2, Ht1, Hv2, Hv1, <- app_assoc.
    split; [done |]. split; [done |]. split.
    + intros p sig Hin. apply elem_of_app.
      apply elem_of_cons in Hin as [<- | Hin]; [left; by apply Hg1 | right; by apply Hg2].
    + intros i server Hin Hsv. apply elem_of_app.
      apply elem_of_cons in Hin as [<- | Hin]; [left; by eapply Hl1 |].
      right. eapply Hl2; [done | by rewrite Hv1].
Qed.

Lemma elem_of_rev_2 {A} (x : A) (l : list A) : x ∈ l → x ∈ rev l.
Proof.
  intros H. apply list_elem_of_In. apply -> in_rev. by apply list_elem_of_In.
Qed.

(** At interpreter exit a process group with a [killpg] entry of its own
    is sent [SIGKILL], and the process [server] is bound to is sent
    [SIGTERM] when a lambda is registered. *)
Lemma run_exitfuncs_events (s : state) :
  ∃ evs,
    trace (run_exitfuncs s) = trace s ++ evs ∧
    (∀ p, hooked s p → EvKill os_killpg_call p SIGKILL ∈ evs) ∧
    (∀ p, held s p → EvKill os_kill_fn p SIGTERM ∈ evs).
Proof.
  unfold run_exitfuncs.
  destruct (run_handlers_events (rev (exithandlers s)) (with_exithandlers [] s))
    as (evs & Ht & _ & Hg & Hl).
  exists evs. split; [exact Ht |]. split.
  - intros p Hp. apply Hg. by apply elem_of_rev_2.
  - intros p [Hsv (i & Hi)].
    apply (Hl i {| pid := p |}); [by apply elem_of_rev_2 | exact Hsv].
Qed.

Lemma hooked_app s s' hs p :
  exithandlers s' = exithandlers s ++ hs → hooked s p → hooked s' p.
Proof. unfold hooked. intros -> H. apply elem_of_app. by left. Qed.

(** A server that started in a run of the loop was sent its kill in the
    run, or the run leaves it with a [killpg] entry of its own (POSIX), or
    as the one the registered lambdas will read (Windows). *)
Lemma loop_run_covered w town fps ts ct n a s r s' :
  loop_run w town fps ts ct n a s r s' →
  ∃ evs,
    trace s' = trace s ++ evs ∧
    ∀ cmd, cmd ∈ started w (popen_cmds evs) →
           kill_of_cmd w cmd ∈ kill_events evs
           ∨ (on_nt w = false ∧ hooked s' (spawn_pid w cmd))
           ∨ (on_nt w = true ∧ held s' (spawn_pid w cmd)).
Proof.
  assert (Hlast : ∀ a s r s',
    turn w town fps ts ct n a s r s' →
    (∀ a', r ≠ Ok (inr a')) →
    ∃ evs,
      trace s' = trace s ++ evs ∧
      ∀ cmd, cmd ∈ started w (popen_cmds evs) →
             kill_of_cmd w cmd ∈ kill_events evs
             ∨ (on_nt w = false ∧ hooked s' (spawn_pid w cmd))
             ∨ (on_nt w = true ∧ held s' (spawn_pid w cmd))).
  { intros a0 s0 r0 s0' Ht Hr.
    apply turn_state in Ht as (evs & Htr & Hcase). exists evs. split; [done |].
    assert (Hcase' :
      (started w (popen_cmds evs) = [] ∧ exithandlers s0' = exithandlers s0)
      ∨ ∃ cmd i,
          popen_cmds evs = [cmd] ∧ sh_spawnable w cmd = true ∧
          exithandlers s0'
          = exithandlers s0 ++ [registered w i {| pid := spawn_pid w cmd |}] ∧
          server_var s0' = Some {| pid := spawn_pid w cmd |}).
    { destruct r0 as [[v | a'] | e |]; try exact Hcase. by destruct (Hr a'). }
    destruct Hcase' as [(Hst & _) | (cmd & i & Hp & Hsh & Hh & Hsv)].
    - intros cmd Hin. rewrite Hst in Hin. by apply elem_of_nil in Hin.
    - intros cmd' Hin. rewrite Hp, (started_one _ _ Hsh) in Hin.
      apply list_elem_of_singleton in Hin as ->. right.
      destruct (on_nt w) eqn:Hnt.
      + right. split; [done |]. split; [done |]. exists i. rewrite Hh.
        apply elem_of_app. right. rewrite (registered_nt _ _ _ Hnt).
        apply list_elem_of_here.
      + left. split; [done |]. unfold hooked. rewrite Hh. apply elem_of_app.
        right. rewrite (registered_posix _ _ _ Hnt). apply list_elem_of_here. }
  induction 1 as [a s Hge | a s v s' Hlt Hwf Ht | a s e s' Hlt Hwf Ht
                 | a s s1 r s' Hlt Hwf Ht Hrun IH].
  - exists []. rewrite app_nil_r. split; [done |].
    intros cmd Hin. by apply elem_of_nil in Hin.
  - by apply (Hlast _ _ _ _ Ht).
  - by apply (Hlast _ _ _ _ Ht).
  - apply turn_state in Ht as (evs1 & Htr1 & cmd & i & Hp & Hsh & _ & Hk).
    destruct IH as (evs2 & Htr2 & Hcov).
    exists (evs1 ++ evs2). rewrite Htr2, Htr1, <- app_assoc. split; [done |].
    intros cmd' Hin.
    rewrite popen_cmds_app, started_app, Hp, (started_one _ _ Hsh) in Hin.
    rewrite kill_events_app, Hk.
    apply elem_of_app in Hin as [Hin | Hin].
    + apply list_elem_of_singleton in Hin as ->. left.
      apply elem_of_app. left. apply list_elem_of_here.
    + destruct (Hcov cmd' Hin) as [Hkd | Hrest]; [| by right].
      left. apply elem_of_app. by right.
Qed.

(** X3. However [setup] ends and whatever the outside answered, by the
    time the interpreter has run its exit functions every child that this
    call started has been sent the platform's kill, [os.killpg(pid,
    SIGKILL)] on POSIX and [os.kill(pid, SIGTERM)] on Windows, by the
    handler of line 93 or by an exit function.  The child is the one
    [Popen] started: with [shell=True], the command interpreter. *)
Theorem started_servers_are_signalled w town fps ts ct n s cmd :
  wf s →
  let s' := snd (setup w town fps ts ct n s) in
  cmd ∈ started w (popen_cmds (events_since s s')) →
  kill_of_cmd w cmd ∈ kill_events (events_since s (run_exitfuncs s')).
Proof.
  intros Hwf s'. subst s'. destruct (town_in town) eqn:Htown.
  2: { rewrite setup_unfold, Htown. cbn [snd]. unfold events_since at 1.
       rewrite drop_all. intros Hin. by apply elem_of_nil in Hin. }
  destruct (setup_after_loop w town fps ts ct n s Htown)
    as (tail & Hs & Hp & Hk & _).
  cbv zeta in Hs. rewrite Hs.
  destruct (loop_run_covered _ _ _ _ _ _ _ _ _ _
              (setup_loop_run w town fps ts ct n s Hwf)) as (evs & Htr & Hcov).
  set (s1 := snd (setup_while (S (Z.to_nat n)) w town fps ts ct n 0 s)) in *.
  destruct (run_exitfuncs_events (with_trace (trace s1 ++ tail) s1))
    as (xevs & Hx & Hg & Hl).
  assert (Hev : events_since s (with_trace (trace s1 ++ tail) s1) = evs ++ tail).
  { apply events_since_app. cbn [trace with_trace]. by rewrite Htr, <- app_assoc. }
  assert (Hex : events_since s (run_exitfuncs (with_trace (trace s1 ++ tail) s1))
                = evs ++ tail ++ xevs).
  { apply events_since_app. rewrite Hx. cbn [trace with_trace].
    by rewrite Htr, <- !app_assoc. }
  rewrite Hev, Hex, popen_cmds_app, Hp, app_nil_r. intros Hin.
  rewrite !kill_events_app.
  destruct (Hcov cmd Hin) as [Hkd | [[Hnt Hh] | [Hnt Hh]]].
  - apply elem_of_app. by left.
  - apply elem_of_app. right. apply elem_of_app. right.
    apply elem_of_kill_events. unfold kill_of_cmd, kill_event. rewrite Hnt.
    split; [by apply Hg | by eexists _, _, _].
  - apply elem_of_app. right. apply elem_of_app. right.
    apply elem_of_kill_events. unfold kill_of_cmd, kill_event. rewrite Hnt.
    split; [by apply Hl | by eexists _, _, _].
Qed.

(** ** What a run can raise and return *)

Lemma loop_run_runtime_error w town fps ts ct n a s r s' :
  loop_run w town fps ts ct n a s r s' →
  ∀ e, r = Raise e → is_RuntimeError e = true → sleep_fault w ts = Some e.
Proof.
  induction 1 as [a s Hge | a s v s' Hlt Hwf Ht | a s e0 s' Hlt Hwf Ht
                 | a s s1 r s' Hlt Hwf Ht Hrun IH]; intros e Hr He; try done;
    [| by eapply IH].
  injection Hr as ->. inversion Ht; subst; try done. congruence.
Qed.

(** X4. No [RuntimeError] of the client calls ever leaves [setup]: unless
    [time.sleep] itself raises one, no exception that [setup] raises is a
    [RuntimeError]. *)
Theorem setup_raises_no_runtime_error w town fps ts ct n s e :
  wf s →
  (∀ e', sleep_fault w ts = Some e' → is_RuntimeError e' = false) →
  fst (setup w town fps ts ct n s) = Raise e →
  is_RuntimeError e = false.
Proof.
  intros Hwf Hsleep. rewrite setup_unfold. destruct (town_in town).
  2: { by intros [= <-]. }
  pose proof (loop_run_runtime_error _ _ _ _ _ _ _ _ _ _
                (setup_loop_run w town fps ts ct n s Hwf)) as Hloop.
  destruct (setup_while _ _ _ _ _ _ _ _ _) as [[[v |] | e0 |] s1];
    cbn [fst] in *; try done.
  - by intros [= <-].
  - intros [= ->]. destruct (is_RuntimeError e) eqn:He; [| done].
    rewrite <- He. apply Hsleep. by apply Hloop.
Qed.

(** X5. With [num_max_restarts <= 0] and a valid town [setup] makes no
    attempt at all: it logs the failure line and raises [SystemExit],
    leaving everything else as it was. *)
Theorem setup_without_budget w town fps ts ct n s :
  town_in town = true →
  (n ≤ 0)%Z →
  setup w town fps ts ct n s
  = (Raise (SystemExit None),
     with_trace (trace s ++ [EvLog ("Failed to connect to CARLA after "
                                      +:+ pretty n +:+ " attempts")]) s).
Proof.
  intros Htown Hn. rewrite setup_unfold, Htown. cbn [setup_while].
  assert (Hlt : (0 <? n)%Z = false) by (apply Z.ltb_ge; lia).
  by rewrite Hlt.
Qed.

Lemma loop_run_returned w town fps ts ct n a s r s' :
  loop_run w town fps ts ct n a s r s' →
  ∀ client wd frame server,
    r = Ok (Some (client, wd, frame, server)) →
    pid server ∈ procs s' ∧
    server_var s' = Some server ∧
    ∃ i, last (exithandlers s') = Some (registered w i server).
Proof.
  induction 1 as [a s Hge | a s v s' Hlt Hwf Ht | a s e0 s' Hlt Hwf Ht
                 | a s s1 r s' Hlt Hwf Ht Hrun IH];
    intros client wd frame server Hr; try done; [| by eapply IH].
  injection Hr as ->. inversion Ht as [| | | root v Hroot Hsh Hsl Htry | |]; subst.
  apply try_result_Ok in Htry as (Hv & _). injection Hv as _ _ _ Hserver.
  rewrite <- Hserver. cbn [procs server_var exithandlers launched].
  split; [apply elem_of_union; left; by apply elem_of_singleton |].
  split; [done |]. eexists. by rewrite last_snoc.
Qed.

(** X6. Whenever [setup] returns, the server it returns is in the process
    table, is the one [server] is bound to, and the last entry of the
    [atexit] registry is the one registered for it. *)
Theorem returned_server_is_live_and_hooked w town fps ts ct n s
    client wd frame server s' :
  wf s →
  setup w town fps ts ct n s = (Ok (client, wd, frame, server), s') →
  pid server ∈ procs s' ∧
  server_var s' = Some server ∧
  ∃ i, last (exithandlers s') = Some (registered w i server).
Proof.
  intros Hwf. rewrite setup_unfold. destruct (town_in town); [| done].
  pose proof (loop_run_returned _ _ _ _ _ _ _ _ _ _
                (setup_loop_run w town fps ts ct n s Hwf)) as Hloop.
  destruct (setup_while _ _ _ _ _ _ _ _ _) as [[[v |] | e0 |] s1];
    cbn [fst snd] in *; try done.
  intros [= -> <-]. by eapply Hloop.
Qed.

(** X7. When the attempts before attempt [k] are retryable failures and
    attempt [k] starts its server, sleeps and runs its [try] body to the
    end, [setup] returns the session of attempt [k], on port [2000 + k],
    after [k + 1] launches and connections and [k] kills, and the registry
    has grown by [k + 1] entries. *)
Theorem setup_returns_after_retries w town fps ts ct n s (k : nat) root v :
  wf s →
  town_in town = true →
  (Z.of_nat k < n)%Z →
  (∀ i, (0 ≤ i < Z.of_nat k)%Z →
        fails_retryably w town fps ts ct (environ s) i = true) →
  environ s !! "CARLA_ROOT" = Some root →
  sh_spawnable w (server_cmd w root (2000 + Z.of_nat k)) = true →
  sleep_fault w ts = None →
  try_result w town fps ct (2000 + Z.of_nat k) (server_of w root (Z.of_nat k)) = Ok v →
  ∃ (s' : state) (hs : list exit_handler),
    setup w town fps ts ct n s = (Ok v, s') ∧
    v = ({| client_host := "localhost"; client_port := 2000 + Z.of_nat k |},
         {| world_client :=
              {| client_host := "localhost"; client_port := 2000 + Z.of_nat k |} |},
         frame_of w (2000 + Z.of_nat k), server_of w root (Z.of_nat k)) ∧
    length (popen_cmds (events_since s s')) = S k ∧
    length (client_ports (events_since s s')) = S k ∧
    length (kill_targets (events_since s s')) = k ∧
    exithandlers s' = exithandlers s ++ hs ∧ length hs = S k.
Proof.
  intros Hwf Htown Hlt Hfail Hroot Hsh Hsl Htry.
  destruct (setup_while_retries w town fps ts ct n k (S (Z.to_nat n) - k) 0%Z s Hwf)
    as (s1 & evs & hs & Hrun & Hwf1 & Henv1 & Htr & Hlp & Hlc & Hlk & Hhs & Hlen
        & _);
    [lia | by intros i Hi; apply Hfail; lia |].
  assert (Hroot1 : environ s1 !! "CARLA_ROOT" = Some root)
    by by rewrite (environ_heap _ _ Henv1).
  pose proof Hwf1 as [_ Hnext1 Hlam1].
  pose proof (setup_iteration_run w town fps ts ct n (0 + Z.of_nat k) s1
                Hnext1 Hlam1) as Hturn.
  rewrite Hroot1 in Hturn. cbv zeta in Hturn. rewrite Z.add_0_l in Hturn.
  rewrite Hsh, Hsl in Hturn. fold (server_of w root (Z.of_nat k)) in Hturn.
  rewrite Htry in Hturn.
  destruct (launch_try_events_shape w town fps ts ct n s1 root (Z.of_nat k))
    as [Sp Sk].
  destruct (try_events_shape w town fps ct (2000 + Z.of_nat k)) as (_ & _ & T3 & T4).
  eexists _, (hs ++ [_]). split.
  { rewrite setup_unfold, Htown.
    replace (S (Z.to_nat n)) with (k + (S (Z.to_nat n) - k)) by lia.
    rewrite Hrun.
    destruct (S (Z.to_nat n) - k) as [| fuel] eqn:Hfuel; [lia |].
    cbn [setup_while].
    assert (Hlt' : (0 + Z.of_nat k <? n)%Z = true) by (apply Z.ltb_lt; lia).
    rewrite Hlt', Z.add_0_l. unfold mbind at 1, M_bind at 1. rewrite Hturn.
    reflexivity. }
  split; [by apply try_result_Ok in Htry as (-> & _) |].
  unfold events_since. cbn [trace procs exithandlers launched].
  rewrite Htr, <- app_assoc, drop_app_length.
  rewrite popen_cmds_app, !client_ports_app, !kill_targets_app, !length_app, Sp.
  rewrite T3, T4, Hlp, Hlc, Hlk, Hhs, <- app_assoc, Hlen.
  unfold launch_events, attempt_logs, popen_event. cbn. rewrite ?app_nil_r.
  split; [lia |]. split; [lia |]. split; [lia |].
  split; [done | lia].
Qed.


(** ** The order of launch, sleep, connection and kill *)

Lemma phases_app t1 t2 : phases (t1 ++ t2) = phases t1 ++ phases t2.
Proof. apply omap_app. Qed.

Lemma phases_try_events w town fps ct port :
  phases (try_events w town fps ct port) = [Connect].
Proof.
  unfold try_events. unfold_try. run_monad. split_matches; reflexivity.
Qed.

Lemma phases_kill_event w server : phases [kill_event w server] = [Kill].
Proof. unfold kill_event. by destruct (on_nt w). Qed.

Lemma turn_phases w town fps ts ct n a s r s' :
  turn w town fps ts ct n a s r s' →
  ∃ evs,
    trace s' = trace s ++ evs ∧
    match r with
    | Ok (inr _) => phases evs = [Launch; Sleep ts; Connect; Kill]
    | _ => phases evs `prefix_of` [Launch; Sleep ts; Connect]
    end.
Proof.
  intros Ht.
  destruct Ht as [Hroot | root Hroot Hsh | root e Hroot Hsh Hsl
    | root v Hroot Hsh Hsl Htry | root e Hroot Hsh Hsl Htry He
    | root e Hroot Hsh Hsl Htry He];
    (eexists; split; [reflexivity |]).
  - by eexists.
  - by eexists [_; _].
  - by eexists [_].
  - unfold launch_events. rewrite !phases_app, phases_try_events. by exists [].
  - unfold retry_events, launch_events, except_events.
    rewrite !phases_app, phases_try_events.
    change [EvLog (exn_str e);
            EvLog ("Stopping CARLA server at port=" +:+ pretty (2000 + a)%Z);
            kill_event w (server_of w root a)]
      with ([EvLog (exn_str e);
             EvLog ("Stopping CARLA server at port=" +:+ pretty (2000 + a)%Z)]
            ++ [kill_event w (server_of w root a)]).
    by rewrite phases_app, phases_kill_event.
  - unfold launch_events. rewrite !phases_app, phases_try_events. by exists [].
Qed.

Lemma loop_run_phases w town fps ts ct n a s r s' :
  loop_run w town fps ts ct n a s r s' →
  ∃ (evs : list event) (k : nat) (tail : list phase),
    trace s' = trace s ++ evs ∧
    phases evs = retried_phases ts k ++ tail ∧
    tail `prefix_of` [Launch; Sleep ts; Connect].
Proof.
  induction 1 as [a s Hge | a s v s' Hlt Hwf Ht | a s e s' Hlt Hwf Ht
                 | a s s1 r s' Hlt Hwf Ht Hrun IH].
  - exists [], 0, []. rewrite app_nil_r. repeat split; try done. by eexists.
  - apply turn_phases in Ht as (evs & Htr & Hp). by exists evs, 0, (phases evs).
  - apply turn_phases in Ht as (evs & Htr & Hp). by exists evs, 0, (phases evs).
  - apply turn_phases in Ht as (evs1 & Htr1 & Hp1).
    destruct IH as (evs2 & k & tail & Htr2 & Hp2 & Htail).
    exists (evs1 ++ evs2), (S k), tail.
    rewrite Htr2, Htr1, <- app_assoc, phases_app, Hp1, Hp2. done.
Qed.

(** X8. In every run of [setup] the servers are handled one attempt after
    the other, each in the order launch, sleep of [server_timestop],
    connection, kill; only the last attempt may stop earlier, and only it
    may be left without a kill. *)
Theorem setup_attempt_order w town fps ts ct n s :
  wf s →
  ∃ (k : nat) (tail : list phase),
    phases (events_since s (snd (setup w town fps ts ct n s)))
    = retried_phases ts k ++ tail ∧
    tail `prefix_of` [Launch; Sleep ts; Connect].
Proof.
  intros Hwf. destruct (town_in town) eqn:Htown.
  2: { rewrite setup_unfold, Htown. cbn [snd]. exists 0, [].
       unfold events_since. rewrite drop_all. split; [done | by eexists]. }
  rewrite setup_unfold, Htown.
  destruct (loop_run_phases _ _ _ _ _ _ _ _ _ _
              (setup_loop_run w town fps ts ct n s Hwf))
    as (evs & k & tail & Htr & Hp & Htail).
  exists k, tail. split; [| done].
  destruct (setup_while _ _ _ _ _ _ _ _ _) as [[[v |] | e |] s1];
    cbn [fst snd] in *; unfold events_since; cbn [trace with_trace];
    rewrite Htr, <- ?app_assoc, drop_app_length, ?phases_app, Hp; try done.
  simpl. by rewrite app_nil_r.
Qed.

(** ** The further properties at concrete inputs *)

Lemma setup_kills_own_servers_witness :
  wf (init_state ambient0) ∧
  let evs := events_since (init_state ambient0)
               (snd (setup posix_second_try "Town01" 20 30 20 3 (init_state ambient0))) in
  ∃ k : nat,
    kill_events evs = kill_of_cmd posix_second_try <$> take k (popen_cmds evs) ∧
    k ≤ length (popen_cmds evs) ≤ S k.
Proof.
  split; [apply wf_init |].
  apply (setup_kills_own_servers posix_second_try "Town01" 20 30 20 3
           (init_state ambient0)).
  apply wf_init.
Defined.

Lemma setup_only_adds_hooks_witness :
  wf (init_state ambient0) ∧
  let s' := snd (setup nt_second_try "Town01" 20 30 20 3 (init_state ambient0)) in
  ∃ hs : list exit_handler,
    exithandlers s' = exithandlers (init_state ambient0) ++ hs ∧
    length hs
    = length (started nt_second_try
                (popen_cmds (events_since (init_state ambient0) s'))) ∧
    (on_nt nt_second_try = false →
     hs = posix_hook nt_second_try
          <$> started nt_second_try
                (popen_cmds (events_since (init_state ambient0) s'))) ∧
    (on_nt nt_second_try = true →
     Forall (λ h, eh_args h = [] ∧ ∃ i, eh_func h = lambda_fn i) hs).
Proof.
  split; [apply wf_init |].
  apply (setup_only_adds_hooks nt_second_try "Town01" 20 30 20 3
           (init_state ambient0)).
  apply wf_init.
Defined.

Lemma started_servers_are_signalled_witness :
  server_cmd posix_second_try "/opt/carla" 2001
  ∈ started posix_second_try
      (popen_cmds
         (events_since (init_state ambient0)
            (snd (setup posix_second_try "Town01" 20 30 20 3 (init_state ambient0))))) ∧
  EvKill os_killpg_call 6959 SIGKILL
  ∈ kill_events
      (events_since (init_state ambient0)
         (run_exitfuncs
            (snd (setup posix_second_try "Town01" 20 30 20 3 (init_state ambient0))))).
Proof.
  assert (Hin : server_cmd posix_second_try "/opt/carla" 2001
                ∈ started posix_second_try
                    (popen_cmds
                       (events_since (init_state ambient0)
                          (snd (setup posix_second_try "Town01" 20 30 20 3
                                  (init_state ambient0))))))
    by (apply (bool_decide_unpack _); by vm_compute).
  split; [exact Hin |].
  exact (started_servers_are_signalled posix_second_try "Town01" 20 30 20 3
           (init_state ambient0) (server_cmd posix_second_try "/opt/carla" 2001)
           (wf_init ambient0) Hin).
Defined.

Lemma setup_raises_no_runtime_error_witness :
  is_RuntimeError (SystemExit None) = false.
Proof.
  apply (setup_raises_no_runtime_error posix_refused "Town01" 20 30 20 1
           (init_state ambient0) (SystemExit None)).
  - apply wf_init.
  - intros e' He'. discriminate He'.
  - by vm_compute.
Defined.

Lemma setup_without_budget_witness :
  setup posix_ok "Town03" 20 30 20 0 (init_state ambient0)
  = (Raise (SystemExit None),
     with_trace (trace (init_state ambient0)
                 ++ [EvLog ("Failed to connect to CARLA after "
                              +:+ pretty 0%Z +:+ " attempts")])
       (init_state ambient0)).
Proof.
  apply (setup_without_budget posix_ok "Town03" 20 30 20 0 (init_state ambient0)).
  - reflexivity.
  - lia.
Defined.

Lemma returned_server_is_live_and_hooked_witness :
  pid {| pid := 6959 |}
  ∈ procs (snd (setup posix_second_try "Town01" 20 30 20 3 (init_state ambient0))) ∧
  server_var (snd (setup posix_second_try "Town01" 20 30 20 3 (init_state ambient0)))
  = Some {| pid := 6959 |} ∧
  ∃ i, last (exithandlers
               (snd (setup posix_second_try "Town01" 20 30 20 3
                       (init_state ambient0))))
       = Some (registered posix_second_try i {| pid := 6959 |}).
Proof.
  apply (returned_server_is_live_and_hooked posix_second_try "Town01" 20 30 20 3
           (init_state ambient0)
           {| client_host := "localhost"; client_port := 2001 |}
           {| world_client := {| client_host := "localhost"; client_port := 2001 |} |}
           1001 {| pid := 6959 |}
           (snd (setup posix_second_try "Town01" 20 30 20 3 (init_state ambient0)))).
  - apply wf_init.
  - by vm_compute.
Defined.

Lemma posix_second_try_fails (i : Z) :
  (0 ≤ i < Z.of_nat 1)%Z →
  fails_retryably posix_second_try "Town01" 20 30 20
    (environ (init_state ambient0)) i = true.
Proof. intros Hi. assert (i = 0)%Z as -> by lia. by vm_compute. Qed.

Lemma setup_ports_witness :
  popen_cmds
    (events_since (init_state ambient0)
       (snd (setup posix_second_try "Town01" 20 30 20 3 (init_state ambient0)))) !! 1
  = Some "DISPLAY= /opt/carla/CarlaUE4.sh -opengl  -carla-rpc-port=2001 -quality-level=Epic " ∧
  client_ports
    (events_since (init_state ambient0)
       (snd (setup posix_second_try "Town01" 20 30 20 3 (init_state ambient0)))) !! 0
  = Some 2000%Z ∧
  client_ports
    (events_since (init_state ambient0)
       (snd (setup posix_second_try "Town01" 20 30 20 3 (init_state ambient0)))) !! 1
  = Some 2001%Z ∧
  (2000 < 2001)%Z.
Proof.
  pose proof (setup_ports posix_second_try "Town01" 20 30 20 3
                (init_state ambient0) (wf_init ambient0)) as H.
  cbv zeta in H. destruct H as (_ & _ & Hinc & Hreach).
  assert (Hroot : environ (init_state ambient0) !! "CARLA_ROOT" = Some "/opt/carla")
    by by vm_compute.
  destruct (Hreach 0 "/opt/carla" eq_refl ltac:(lia) ltac:(intros i Hi; lia) Hroot)
    as [_ Hc0].
  destruct (Hreach 1 "/opt/carla" eq_refl ltac:(lia) posix_second_try_fails Hroot)
    as [Hp1 Hc1].
  specialize (Hc0 eq_refl eq_refl). specialize (Hc1 eq_refl eq_refl).
  split; [exact Hp1 |]. split; [exact Hc0 |]. split; [exact Hc1 |].
  exact (Hinc 0 1 _ _ ltac:(lia) Hc0 Hc1).
Defined.

Lemma setup_returns_after_retries_witness :
  ∃ (s' : state) (hs : list exit_handler),
    setup posix_second_try "Town01" 20 30 20 3 (init_state ambient0)
    = (Ok ({| client_host := "localhost"; client_port := 2001 |},
           {| world_client :=
                {| client_host := "localhost"; client_port := 2001 |} |},
           1001%Z, {| pid := 6959 |}), s') ∧
    ({| client_host := "localhost"; client_port := 2001 |},
     {| world_client := {| client_host := "localhost"; client_port := 2001 |} |},
     1001%Z, {| pid := 6959 |})
    = ({| client_host := "localhost"; client_port := 2000 + Z.of_nat 1 |},
       {| world_client :=
            {| client_host := "localhost"; client_port := 2000 + Z.of_nat 1 |} |},
       frame_of posix_second_try (2000 + Z.of_nat 1),
       server_of posix_second_try "/opt/carla" (Z.of_nat 1)) ∧
    length (popen_cmds (events_since (init_state ambient0) s')) = 2 ∧
    length (client_ports (events_since (init_state ambient0) s')) = 2 ∧
    length (kill_targets (events_since (init_state ambient0) s')) = 1 ∧
    exithandlers s' = exithandlers (init_state ambient0) ++ hs ∧ length hs = 2.
Proof.
  apply (setup_returns_after_retries posix_second_try "Town01" 20 30 20 3
           (init_state ambient0) 1 "/opt/carla").
  - apply wf_init.
  - reflexivity.
  - lia.
  - apply posix_second_try_fails.
  - by vm_compute.
  - reflexivity.
  - reflexivity.
  - by vm_compute.
Defined.

Lemma setup_attempt_order_witness :
  wf (init_state ambient0) ∧
  ∃ (k : nat) (tail : list phase),
    phases (events_since (init_state ambient0)
              (snd (setup posix_second_try "Town01" 20 30 20 3 (init_state ambient0))))
    = retried_phases 30 k ++ tail ∧
    tail `prefix_of` [Launch; Sleep 30; Connect].
Proof.
  split; [apply wf_init |].
  apply (setup_attempt_order posix_second_try "Town01" 20 30 20 3
           (init_state ambient0)).
  apply wf_init.
Defined.

(** ** train_sac.py: histories of [main] *)

Lemma tally_app f l1 l2 : tally f (l1 ++ l2) = tally f l1 + tally f l2.
Proof. induction l1 as [| c l1 IH]; simpl; [done |]. rewrite IH. lia. Qed.

Lemma invoke_run w c h :
  invoke w c h
  = (match call_fault w (h ++ [c]) with Some e => Raise e | None => Ok tt end,
     h ++ [c]).
Proof. unfold invoke. by destruct (call_fault w (h ++ [c])). Qed.

(** One turn of the [while] of line 59. *)
Lemma main_while_not_done_step fuel w obs h :
  main_while_not_done (S fuel) w false obs h
  = let h1 := h ++ [model_predict obs] in
    match call_fault w h1 with
    | Some e => (Raise e, h1)
    | None =>
        let h2 := h1 ++ [env_step TestEnv (chosen w h1)] in
        match call_fault w h2 with
        | Some e => (Raise e, h2)
        | None =>
            let h3 := h2 ++ [env_render TestEnv] in
            match call_fault w h3 with
            | Some e => (Raise e, h3)
            | None =>
                let h4 := h3 ++ [print_reward (rewarded w h2) (informed w h2)] in
                match call_fault w h4 with
                | Some e => (Raise e, h4)
                | None =>
                    main_while_not_done fuel w (finished w h2) (observed w h2) h4
                end
            end
        end
    end.
Proof.
  cbn [main_while_not_done]. unfold mbind, TM_bind, answer. rewrite invoke_run.
  cbv zeta. destruct (call_fault w (h ++ [model_predict obs])); [done |].
  rewrite invoke_run. destruct (call_fault w _); [done |].
  rewrite invoke_run. destruct (call_fault w _); [done |].
  rewrite invoke_run. by destruct (call_fault w _).
Qed.

Lemma main_while_not_done_counts w :
  ∀ fuel done obs h,
    ∃ evs,
      snd (main_while_not_done fuel w done obs h) = h ++ evs ∧
      test_counts 0 evs ∧
      (fst (main_while_not_done fuel w done obs h) = Ok tt →
       test_counts_done 0 evs ∧ (done = false → 1 ≤ tally is_step evs)).
Proof.
  induction fuel as [| fuel IH]; intros done obs h.
  - destruct done; simpl.
    + exists []. rewrite app_nil_r. split; [done |].
      split; [by split | intros _; split; [by split | done]].
    + exists []. rewrite app_nil_r. split; [done |]. split; [by split | done].
  - destruct done.
    + exists []. simpl. rewrite app_nil_r. split; [done |].
      split; [by split | intros _; split; [by split | done]].
    + rewrite main_while_not_done_step. cbv zeta.
      destruct (call_fault w (h ++ [model_predict obs])).
      { eexists [_]. split; [done |]. split; [split; simpl; lia | done]. }
      destruct (call_fault w ((h ++ [model_predict obs]) ++ [_])).
      { eexists [_; _]. split; [by rewrite <- app_assoc |].
        split; [split; simpl; lia | done]. }
      destruct (call_fault w (((h ++ [model_predict obs]) ++ [_]) ++ [_])).
      { eexists [_; _; _]. split; [by rewrite <- !app_assoc |].
        split; [split; simpl; lia | done]. }
      destruct (call_fault w ((((h ++ [model_predict obs]) ++ [_]) ++ [_]) ++ [_])).
      { eexists [_; _; _; _]. split; [by rewrite <- !app_assoc |].
        split; [split; simpl; lia | done]. }
      match goal with
      | |- context [main_while_not_done fuel w ?d ?o ?h'] =>
          destruct (IH d o h') as (evs & Hh & [C1 C2 C3 C4] & Hok)
      end.
      eexists ([_; _; _; _] ++ evs).
      split; [rewrite Hh; by rewrite <- !app_assoc |].
      split.
      * split; rewrite tally_app; simpl; lia.
      * intros Hr. destruct (Hok Hr) as [[D1 D2 D3 D4 D5] _].
        split; [split |]; rewrite ?tally_app; simpl; lia.
Qed.

Lemma main_for_episodes_counts w fuel :
  ∀ episodes h,
    ∃ evs,
      snd (main_for_episodes episodes fuel w h) = h ++ evs ∧
      test_counts episodes evs ∧
      (fst (main_for_episodes episodes fuel w h) = Ok tt →
       test_counts_done episodes evs).
Proof.
  induction episodes as [| episodes IH]; intros h.
  - exists []. simpl. rewrite app_nil_r. split; [done |].
    split; [by split | intros _; by split].
  - cbn [main_for_episodes]. unfold mbind, TM_bind, answer. rewrite invoke_run.
    destruct (call_fault w (h ++ [env_reset TestEnv])).
    { eexists [_]. split; [done |]. split; [split; simpl; lia | done]. }
    destruct (main_while_not_done_counts w fuel false
                (observed w (h ++ [env_reset TestEnv])) (h ++ [env_reset TestEnv]))
      as (evs1 & Hh1 & [C1 C2 C3 C4] & Hok1).
    destruct (main_while_not_done fuel w false _ _) as [[[] | e |] h1];
      cbn [fst snd] in *; subst h1.
    + destruct (Hok1 eq_refl) as [[D1 D2 D3 D4 D5] Hone].
      specialize (Hone eq_refl).
      destruct (IH ((h ++ [env_reset TestEnv]) ++ evs1))
        as (evs2 & Hh2 & [E1 E2 E3 E4] & Hok2).
      exists ([env_reset TestEnv] ++ evs1 ++ evs2).
      split; [rewrite Hh2; by rewrite <- !app_assoc |].
      split.
      * split; rewrite !tally_app; simpl; lia.
      * intros Hr. destruct (Hok2 Hr) as [F1 F2 F3 F4 F5].
        split; rewrite !tally_app; simpl; lia.
    + exists ([env_reset TestEnv] ++ evs1).
      split; [by rewrite <- !app_assoc |].
      split; [split; rewrite !tally_app; simpl; lia | done].
    + exists ([env_reset TestEnv] ++ evs1).
      split; [by rewrite <- !app_assoc |].
      split; [split; rewrite !tally_app; simpl; lia | done].
Qed.

Lemma emits_ret {A} Q (a : A) : emits Q (mret a : TM A).
Proof. intros h. exists []. by rewrite app_nil_r. Qed.

Lemma emits_answer {A} Q (f : list tcall → A) : emits Q (answer f).
Proof. intros h. exists []. by rewrite app_nil_r. Qed.

Lemma emits_invoke (Q : tcall → Prop) w c : Q c → emits Q (invoke w c).
Proof.
  intros HQ h. exists [c]. rewrite invoke_run. split; [done |].
  by apply Forall_singleton.
Qed.

Lemma emits_bind {A B} Q (m : TM A) (f : A → TM B) :
  emits Q m → (∀ a, emits Q (f a)) → emits Q (m ≫= f).
Proof.
  intros Hm Hf h. destruct (Hm h) as (evs & Hh & HQ).
  unfold mbind, TM_bind. destruct (m h) as [[a | e |] h1]; cbn [snd] in *; subst h1.
  - destruct (Hf a (h ++ evs)) as (evs' & Hh' & HQ').
    exists (evs ++ evs'). rewrite Hh', <- app_assoc. split; [done |].
    by apply Forall_app.
  - by exists evs.
  - by exists evs.
Qed.

Lemma emits_try_finally {A} Q (body : TM A) (final : TM unit) :
  emits Q body → emits Q final → emits Q (try_finally body final).
Proof.
  intros Hb Hf h. destruct (Hb h) as (evs & Hh & HQ).
  unfold try_finally.
  destruct (body h) as [[a | e |] h1]; cbn [snd] in *; subst h1.
  - destruct (Hf (h ++ evs)) as (evs' & Hh' & HQ').
    exists (evs ++ evs'). split; [| by apply Forall_app].
    destruct (final (h ++ evs)) as [[[] | e' |] h2]; cbn [snd] in *; subst h2;
      by rewrite <- app_assoc.
  - destruct (Hf (h ++ evs)) as (evs' & Hh' & HQ').
    exists (evs ++ evs'). split; [| by apply Forall_app].
    destruct (final (h ++ evs)) as [[[] | e' |] h2]; cbn [snd] in *; subst h2;
      by rewrite <- app_assoc.
  - by exists evs.
Qed.

Lemma emits_main_while_not_done (Q : tcall → Prop) w :
  (∀ c, is_test_call c = true → on_env c = false → Q c) →
  ∀ fuel done obs, emits Q (main_while_not_done fuel w done obs).
Proof.
  intros HQ. induction fuel as [| fuel IH]; intros done obs.
  - destruct done; simpl; [apply emits_ret |].
    intros h. exists []. by rewrite app_nil_r.
  - destruct done; cbn [main_while_not_done]; [apply emits_ret |].
    repeat first
      [ apply IH
      | apply emits_answer
      | apply emits_invoke; by apply HQ
      | apply emits_bind; [| intros ?] ].
Qed.

Lemma emits_main_for_episodes (Q : tcall → Prop) w fuel :
  (∀ c, is_test_call c = true → on_env c = false → Q c) →
  ∀ episodes, emits Q (main_for_episodes episodes fuel w).
Proof.
  intros HQ. induction episodes as [| episodes IH]; cbn [main_for_episodes];
    [apply emits_ret |].
  repeat first
    [ apply IH
    | apply emits_main_while_not_done; exact HQ
    | apply emits_answer
    | apply emits_invoke; by apply HQ
    | apply emits_bind; [| intros ?] ].
Qed.

Lemma emits_main_try (Q : tcall → Prop) fuel w model_name load_model seed :
  (∀ c, body_call (truthy load_model) c → Q c) →
  emits Q (main_try fuel w model_name load_model seed).
Proof.
  intros HQ. unfold main_try. destruct (truthy load_model).
  - apply emits_bind; [by apply emits_invoke, HQ | intros _].
    apply emits_main_for_episodes. intros c Hc Henv. apply HQ.
    split; [by destruct c |]. split; [done | by destruct c].
  - repeat first
      [ apply emits_ret
      | apply emits_invoke; by apply HQ
      | apply emits_bind; [| intros ?] ].
Qed.

Lemma main_build_run w town fps im_width im_height repeat_action
    start_transform_type sensors enable_preview steps_per_episode action_type h :
  ∃ k,
    snd (main_build w town fps im_width im_height repeat_action
           start_transform_type sensors enable_preview steps_per_episode
           action_type h)
    = h ++ take k (build_calls town fps im_width im_height repeat_action
                     start_transform_type sensors enable_preview
                     steps_per_episode action_type) ∧
    (fst (main_build w town fps im_width im_height repeat_action
            start_transform_type sensors enable_preview steps_per_episode
            action_type h) = Ok tt → k = 3).
Proof.
  unfold main_build, mbind, TM_bind. rewrite invoke_run.
  destruct (call_fault w _); [by exists 1 |].
  rewrite invoke_run. destruct (call_fault w _).
  { exists 2. by rewrite <- app_assoc. }
  rewrite invoke_run. exists 3. rewrite <- !app_assoc. split; [done | done].
Qed.

Lemma main_unfold fuel w model_name load_model town fps im_width im_height
    repeat_action start_transform_type sensors enable_preview steps_per_episode
    seed action_type h :
  main fuel w model_name load_model town fps im_width im_height repeat_action
    start_transform_type sensors enable_preview steps_per_episode seed
    action_type h
  = match main_build w town fps im_width im_height repeat_action
            start_transform_type sensors enable_preview steps_per_episode
            action_type h with
    | (Ok _, h1) =>
        try_finally (main_try fuel w model_name load_model seed)
          (main_finally w) h1
    | (Raise e, h1) => (Raise e, h1)
    | (OutOfFuel, h1) => (OutOfFuel, h1)
    end.
Proof. reflexivity. Qed.

Lemma tally_none f (Q : tcall → Prop) l :
  Forall Q l → (∀ c, Q c → f c = false) → tally f l = 0.
Proof.
  intros Hl HQ. induction Hl as [| c l Hc Hl IH]; simpl; [done |].
  by rewrite (HQ c Hc), IH.
Qed.

Lemma main_try_counts fuel w model_name load_model seed h :
  ∃ evs,
    snd (main_try fuel w model_name load_model seed h) = h ++ evs ∧
    Forall (λ c, is_close c = false) evs ∧
    test_counts 10 evs ∧
    (fst (main_try fuel w model_name load_model seed h) = Ok tt →
     truthy load_model = true → test_counts_done 10 evs).
Proof.
  destruct (emits_main_try (λ c, is_close c = false) fuel w model_name
              load_model seed) with (h := h) as (evs0 & Hh0 & Hclose).
  { by intros c (Hc & _). }
  destruct (truthy load_model) eqn:Hload.
  - unfold main_try in *. rewrite Hload in *. unfold mbind, TM_bind in *.
    rewrite invoke_run in *. destruct (call_fault w _).
    + cbn [fst snd] in *. exists evs0. split; [done |]. split; [done |].
      apply app_inv_head in Hh0 as <-. split; [split; simpl; lia | done].
    + destruct (main_for_episodes_counts w fuel 10
                  (h ++ [SAC_load model_name Env action_noise]))
        as (evs & Hh & [C1 C2 C3 C4] & Hok).
      exists evs0. split; [done |]. split; [done |].
      rewrite Hh, <- app_assoc in Hh0. apply app_inv_head in Hh0 as <-.
      split; [split; simpl; lia |].
      intros Hr _. destruct (Hok Hr) as [D1 D2 D3 D4 D5]. split; simpl; lia.
  - destruct (emits_main_try (λ c, is_test_call c = false) fuel w model_name
                load_model seed) with (h := h) as (evs1 & Hh1 & Htest).
    { rewrite Hload. by intros c (_ & _ & Hc). }
    exists evs1. split; [done |].
    rewrite Hh1 in Hh0. apply app_inv_head in Hh0 as <-. split; [done |].
    assert (Hz : ∀ f, (∀ c, f c = true → is_test_call c = true) → tally f evs1 = 0).
    { intros f Hf. apply (tally_none f _ _ Htest). intros c Hc.
      destruct (f c) eqn:Hfc; [| done]. apply Hf in Hfc. congruence. }
    split; [| done].
    split; rewrite ?Hz; try lia; intros c Hc; by destruct c.
Qed.

Lemma emits_main_build (Q : tcall → Prop) w town fps im_width im_height
    repeat_action start_transform_type sensors enable_preview steps_per_episode
    action_type :
  (∀ c, is_test_call c = false → is_training_call c = false →
        is_close c = false → Q c) →
  emits Q (main_build w town fps im_width im_height repeat_action
             start_transform_type sensors enable_preview steps_per_episode
             action_type).
Proof.
  intros HQ. unfold main_build.
  repeat first
    [ apply emits_invoke; by apply HQ
    | apply emits_bind; [| intros ?] ].
Qed.

Lemma emits_main_finally (Q : tcall → Prop) w :
  (∀ c, is_close c = true → Q c) → emits Q (main_finally w).
Proof.
  intros HQ. unfold main_finally.
  apply emits_bind; [| intros ?]; apply emits_invoke; by apply HQ.
Qed.

(** X9. [main] keeps its two phases apart.  Called to load a model it
    never constructs, trains or saves one; called to train it never
    resets, steps or renders an environment and never asks the model for
    an action. *)
Theorem main_phases fuel w model_name load_model town fps im_width im_height
    repeat_action start_transform_type sensors enable_preview steps_per_episode
    seed action_type h :
  let evs :=
    drop (length h)
      (snd (main fuel w model_name load_model town fps im_width im_height
              repeat_action start_transform_type sensors enable_preview
              steps_per_episode seed action_type h)) in
  if truthy load_model
  then Forall (λ c, is_training_call c = false) evs
  else Forall (λ c, is_test_call c = false) evs.
Proof.
  intros evs. subst evs.
  set (Q := λ c : tcall,
         if truthy load_model then is_training_call c = false
         else is_test_call c = false).
  assert (Hm : emits Q
            (main fuel w model_name load_model town fps im_width im_height
               repeat_action start_transform_type sensors enable_preview
               steps_per_episode seed action_type)).
  { unfold main. apply emits_bind; [| intros _].
    - apply emits_main_build. intros c H1 H2 _. unfold Q.
      by destruct (truthy load_model).
    - apply emits_try_finally.
      + apply emits_main_try. unfold Q. intros c (_ & _ & Hc).
        by destruct (truthy load_model).
      + apply emits_main_finally. intros c Hc. unfold Q.
        destruct (truthy load_model); by destruct c. }
  destruct (Hm h) as (evs & Hh & HQ). rewrite Hh, drop_app_length.
  unfold Q in HQ. by destruct (truthy load_model).
Qed.

Lemma try_finally_Ok {A} (body : TM A) (final : TM unit) h a :
  fst (try_finally body final h) = Ok a → fst (body h) = Ok a.
Proof.
  unfold try_finally. destruct (body h) as [[a' | e |] h1]; cbn [fst]; [| | done].
  - by destruct (final h1) as [[[] | e' |] h2].
  - by destruct (final h1) as [[[] | e' |] h2].
Qed.

(** The history of [main]: the calls that build the objects, those of the
    [try] body, those of the [finally] block. *)
Lemma main_run_shape fuel w model_name load_model town fps im_width im_height
    repeat_action start_transform_type sensors enable_preview steps_per_episode
    seed action_type h :
  ∃ pre body post,
    snd (main fuel w model_name load_model town fps im_width im_height
           repeat_action start_transform_type sensors enable_preview
           steps_per_episode seed action_type h)
    = h ++ pre ++ body ++ post ∧
    Forall (λ c, is_test_call c = false) pre ∧
    Forall (λ c, is_test_call c = false) post ∧
    test_counts 10 body ∧
    (fst (main fuel w model_name load_model town fps im_width im_height
            repeat_action start_transform_type sensors enable_preview
            steps_per_episode seed action_type h) = Ok tt →
     truthy load_model = true → test_counts_done 10 body).
Proof.
  rewrite main_unfold.
  assert (Hbuild : emits (λ c, is_test_call c = false)
            (main_build w town fps im_width im_height repeat_action
               start_transform_type sensors enable_preview steps_per_episode
               action_type)).
  { apply emits_main_build. by intros c Hc _ _. }
  destruct (Hbuild h) as (pre & Hpre & Hpre_test).
  destruct (main_build _ _ _ _ _ _ _ _ _ _ _ h) as [[[] | e |] h1];
    cbn [snd] in Hpre; subst h1.
  2, 3: exists pre, [], []; rewrite !app_nil_r.
  2, 3: split; [done |]; split; [done |]; split; [done |].
  2, 3: split; [split; simpl; lia | done].
  destruct (main_try_counts fuel w model_name load_model seed (h ++ pre))
    as (body & Hbody & _ & Hcounts & Hdone).
  assert (Hfinal : emits (λ c, is_test_call c = false) (main_finally w)).
  { apply emits_main_finally. intros c Hc. by destruct c. }
  destruct (Hfinal ((h ++ pre) ++ body)) as (post & Hpost & Hpost_test).
  pose proof (try_finally_Ok (main_try fuel w model_name load_model seed)
                (main_finally w) (h ++ pre) tt) as Hok.
  unfold try_finally in *.
  destruct (main_try fuel w model_name load_model seed (h ++ pre))
    as [[[] | e |] hb]; cbn [fst snd] in *; subst hb.
  - exists pre, body, post. rewrite <- !app_assoc in *.
    split.
    { destruct (main_finally w (h ++ pre ++ body)) as [[[] | e' |] hf];
        cbn [snd] in *; by subst hf. }
    split; [done |]. split; [done |]. split; [done |].
    intros _ Hload. by apply Hdone.
  - exists pre, body, post. rewrite <- !app_assoc in *.
    split.
    { destruct (main_finally w (h ++ pre ++ body)) as [[[] | e' |] hf];
        cbn [snd] in *; by subst hf. }
    split; [done |]. split; [done |]. split; [done |].
    intros Hr. by specialize (Hok Hr).
  - exists pre, body, []. rewrite <- !app_assoc, app_nil_r in *.
    split; [done |]. split; [done |]. split; [done |]. split; [done | done].
Qed.

Lemma tally_padded f pre body post :
  (∀ c, f c = true → is_test_call c = true) →
  Forall (λ c, is_test_call c = false) pre →
  Forall (λ c, is_test_call c = false) post →
  tally f (pre ++ body ++ post) = tally f body.
Proof.
  intros Hf Hpre Hpost. rewrite !tally_app.
  assert (Hz : ∀ l, Forall (λ c, is_test_call c = false) l → tally f l = 0).
  { intros l Hl. apply (tally_none f _ _ Hl). intros c Hc.
    destruct (f c) eqn:Hfc; [| done]. apply Hf in Hfc. congruence. }
  rewrite (Hz pre Hpre), (Hz post Hpost). lia.
Qed.

(** X10. In every run of [main], however it ends, [test_env] is reset at
    most 10 times, and the calls of the test loop keep their order: no
    step without a prediction before it, no render without a step, no
    reward line without a render. *)
Theorem main_test_bounds fuel w model_name load_model town fps im_width
    im_height repeat_action start_transform_type sensors enable_preview
    steps_per_episode seed action_type h :
  let evs :=
    drop (length h)
      (snd (main fuel w model_name load_model town fps im_width im_height
              repeat_action start_transform_type sensors enable_preview
              steps_per_episode seed action_type h)) in
  tally is_reset evs ≤ 10 ∧
  tally is_step evs ≤ tally is_predict evs ∧
  tally is_render evs ≤ tally is_step evs ∧
  tally is_print_reward evs ≤ tally is_render evs.
Proof.
  intros evs. subst evs.
  destruct (main_run_shape fuel w model_name load_model town fps im_width
              im_height repeat_action start_transform_type sensors
              enable_preview steps_per_episode seed action_type h)
    as (pre & body & post & Hh & Hpre & Hpost & [C1 C2 C3 C4] & _).
  rewrite Hh, drop_app_length.
  rewrite !(tally_padded _ pre body post) by (done || (intros c Hc; by destruct c)).
  done.
Qed.

(** X11. When [main] is called to load a model and returns, it has run
    exactly 10 test episodes: [test_env] was reset 10 times, every
    prediction was followed by its step, render and reward line, and every
    episode took at least one step. *)
Theorem main_runs_ten_episodes fuel w model_name load_model town fps im_width
    im_height repeat_action start_transform_type sensors enable_preview
    steps_per_episode seed action_type h :
  fst (main fuel w model_name load_model town fps im_width im_height
         repeat_action start_transform_type sensors enable_preview
         steps_per_episode seed action_type h) = Ok tt →
  truthy load_model = true →
  let evs :=
    drop (length h)
      (snd (main fuel w model_name load_model town fps im_width im_height
              repeat_action start_transform_type sensors enable_preview
              steps_per_episode seed action_type h)) in
  tally is_reset evs = 10 ∧
  tally is_step evs = tally is_predict evs ∧
  tally is_render evs = tally is_step evs ∧
  tally is_print_reward evs = tally is_render evs ∧
  10 ≤ tally is_step evs.
Proof.
  intros Hr Hload evs. subst evs.
  destruct (main_run_shape fuel w model_name load_model town fps im_width
              im_height repeat_action start_transform_type sensors
              enable_preview steps_per_episode seed action_type h)
    as (pre & body & post & Hh & Hpre & Hpost & _ & Hdone).
  destruct (Hdone Hr Hload) as [D1 D2 D3 D4 D5].
  rewrite Hh, drop_app_length.
  rewrite !(tally_padded _ pre body post) by (done || (intros c Hc; by destruct c)).
  done.
Qed.

Lemma main_finally_run w h :
  main_finally w h
  = match call_fault w (h ++ [env_close Env]) with
    | Some e => (Raise e, h ++ [env_close Env])
    | None =>
        (match call_fault w (h ++ [env_close Env; env_close TestEnv]) with
         | Some e => Raise e
         | None => Ok tt
         end, h ++ [env_close Env; env_close TestEnv])
    end.
Proof.
  unfold main_finally, mbind, TM_bind. rewrite invoke_run.
  destruct (call_fault w (h ++ [env_close Env])); [done |].
  rewrite invoke_run, <- app_assoc. done.
Qed.

(** X12. Once both environments and the callback are built, [env.close()]
    is called as soon as the [try] body ends, whether it returned or
    raised, and not before; [test_env.close()] follows unless
    [env.close()] raised.  [main] then ends as the body did, unless a
    [close] raised, whose exception it raises instead. *)
Theorem main_closes_envs fuel w model_name load_model town fps im_width
    im_height repeat_action start_transform_type sensors enable_preview
    steps_per_episode seed action_type h r hb :
  fst (main_build w town fps im_width im_height repeat_action
         start_transform_type sensors enable_preview steps_per_episode
         action_type h) = Ok tt →
  main_try fuel w model_name load_model seed
    (h ++ build_calls town fps im_width im_height repeat_action
            start_transform_type sensors enable_preview steps_per_episode
            action_type) = (r, hb) →
  r ≠ OutOfFuel →
  main fuel w model_name load_model town fps im_width im_height repeat_action
    start_transform_type sensors enable_preview steps_per_episode seed
    action_type h
  = match call_fault w (hb ++ [env_close Env]) with
    | Some e => (Raise e, hb ++ [env_close Env])
    | None =>
        match call_fault w (hb ++ [env_close Env; env_close TestEnv]) with
        | Some e => (Raise e, hb ++ [env_close Env; env_close TestEnv])
        | None => (r, hb ++ [env_close Env; env_close TestEnv])
        end
    end
  ∧ Forall (λ c, is_close c = false) (drop (length h) hb).
Proof.
  intros Hbuild Hbody Hr. rewrite main_unfold.
  destruct (main_build_run w town fps im_width im_height repeat_action
              start_transform_type sensors enable_preview steps_per_episode
              action_type h) as (k & Hk & Hk3).
  destruct (main_build _ _ _ _ _ _ _ _ _ _ _ h) as [[[] | e |] h1];
    cbn [fst snd] in *; try done.
  rewrite (Hk3 eq_refl) in Hk. cbn [take build_calls] in Hk. subst h1.
  fold (build_calls town fps im_width im_height repeat_action
          start_transform_type sensors enable_preview steps_per_episode
          action_type).
  split.
  - unfold try_finally. rewrite Hbody, main_finally_run.
    destruct r as [[] | e |]; [| | done];
      destruct (call_fault w (hb ++ [env_close Env])); try done;
      by destruct (call_fault w (hb ++ [env_close Env; env_close TestEnv])).
  - destruct (main_try_counts fuel w model_name load_model seed
                (h ++ build_calls town fps im_width im_height repeat_action
                        start_transform_type sensors enable_preview
                        steps_per_episode action_type))
      as (body & Hh & Hclose & _).
    rewrite Hbody in Hh. cbn [snd] in Hh. subst hb.
    rewrite <- app_assoc, drop_app_length. apply Forall_app. split; [| done].
    repeat constructor.
Qed.

(** X13. When building [env], [test_env] or the callback raises, [main]
    raises that exception and closes nothing: an environment that was
    already built is left open. *)
Theorem main_build_failure_closes_nothing fuel w model_name load_model town
    fps im_width im_height repeat_action start_transform_type sensors
    enable_preview steps_per_episode seed action_type h e :
  fst (main_build w town fps im_width im_height repeat_action
         start_transform_type sensors enable_preview steps_per_episode
         action_type h) = Raise e →
  fst (main fuel w model_name load_model town fps im_width im_height
         repeat_action start_transform_type sensors enable_preview
         steps_per_episode seed action_type h) = Raise e ∧
  Forall (λ c, is_close c = false)
    (drop (length h)
       (snd (main fuel w model_name load_model town fps im_width im_height
               repeat_action start_transform_type sensors enable_preview
               steps_per_episode seed action_type h))).
Proof.
  intros Hbuild. rewrite main_unfold.
  assert (Hem : emits (λ c, is_close c = false)
            (main_build w town fps im_width im_height repeat_action
               start_transform_type sensors enable_preview steps_per_episode
               action_type)).
  { apply emits_main_build. by intros c _ _ Hc. }
  destruct (Hem h) as (pre & Hpre & Hclose).
  destruct (main_build _ _ _ _ _ _ _ _ _ _ _ h) as [[[] | e' |] h1];
    cbn [fst snd] in *; try done.
  split; [done |]. subst h1. by rewrite drop_app_length.
Qed.

(** X14. [main] itself never resets, steps or renders the training
    environment [env]: the only call it makes on [env] once it is built
    is [close], and it closes each environment at most once. *)
Theorem main_only_closes_env fuel w model_name load_model town fps im_width
    im_height repeat_action start_transform_type sensors enable_preview
    steps_per_episode seed action_type h :
  let evs :=
    drop (length h)
      (snd (main fuel w model_name load_model town fps im_width im_height
              repeat_action start_transform_type sensors enable_preview
              steps_per_episode seed action_type h)) in
  Forall (λ c, on_env c = false ∨ c = env_close Env) evs ∧
  tally is_close evs ≤ 2.
Proof.
  intros evs. subst evs. rewrite main_unfold.
  assert (Hem : emits (λ c, on_env c = false ∧ is_close c = false)
            (main_build w town fps im_width im_height repeat_action
               start_transform_type sensors enable_preview steps_per_episode
               action_type)).
  { apply emits_main_build. intros c Hc _ Hcl. split; [| done]. by destruct c. }
  destruct (Hem h) as (pre & Hpre & Hpre_ok).
  assert (Hpre_env : Forall (λ c, on_env c = false ∨ c = env_close Env) pre).
  { eapply Forall_impl; [exact Hpre_ok |]. intros c [Hc _]. by left. }
  assert (Hpre_close : tally is_close pre = 0).
  { apply (tally_none _ _ _ Hpre_ok). by intros c [_ Hc]. }
  destruct (main_build _ _ _ _ _ _ _ _ _ _ _ h) as [[[] | e |] h1];
    cbn [snd] in Hpre; subst h1; cbn [snd].
  2, 3: rewrite drop_app_length; split; [done | lia].
  assert (Hbody : emits (λ c, on_env c = false ∧ is_close c = false)
            (main_try fuel w model_name load_model seed)).
  { apply emits_main_try. by intros c (Hc & He & _). }
  destruct (Hbody (h ++ pre)) as (body & Hb & Hbody_ok).
  assert (Hbody_env : Forall (λ c, on_env c = false ∨ c = env_close Env) body).
  { eapply Forall_impl; [exact Hbody_ok |]. intros c [Hc _]. by left. }
  assert (Hbody_close : tally is_close body = 0).
  { apply (tally_none _ _ _ Hbody_ok). by intros c [_ Hc]. }
  unfold try_finally.
  destruct (main_try fuel w model_name load_model seed (h ++ pre))
    as [r hb]; cbn [snd] in Hb; subst hb.
  assert (Hfin :
    ∃ post, snd (main_finally w ((h ++ pre) ++ body)) = ((h ++ pre) ++ body) ++ post ∧
            Forall (λ c, on_env c = false ∨ c = env_close Env) post ∧
            tally is_close post ≤ 2).
  { rewrite main_finally_run. destruct (call_fault w _).
    - exists [env_close Env]. split; [done |]. split; [| simpl; lia].
      apply Forall_singleton. by right.
    - exists [env_close Env; env_close TestEnv]. split; [done |].
      split; [| simpl; lia]. apply Forall_cons. split; [by right |].
      apply Forall_singleton. by left. }
  destruct Hfin as (post & Hpost & Hpost_env & Hpost_close).
  assert (Hall : ∀ l, l = [] ∨ l = post →
    Forall (λ c, on_env c = false ∨ c = env_close Env) (pre ++ body ++ l) ∧
    tally is_close (pre ++ body ++ l) ≤ 2).
  { intros l [-> | ->]; (split; [by repeat (apply Forall_app; split) |]);
      rewrite !tally_app, Hpre_close, Hbody_close; simpl; lia. }
  destruct r as [[] | e |].
  - destruct (main_finally w ((h ++ pre) ++ body)) as [[[] | e' |] hf];
      cbn [snd] in *; subst hf; rewrite <- !app_assoc, drop_app_length;
      apply Hall; by right.
  - destruct (main_finally w ((h ++ pre) ++ body)) as [[[] | e' |] hf];
      cbn [snd] in *; subst hf; rewrite <- !app_assoc, drop_app_length;
      apply Hall; by right.
  - cbn [snd]. rewrite <- (app_nil_r body), <- !app_assoc, drop_app_length.
    apply Hall. by left.
Qed.

Lemma main_runs_ten_episodes_witness :
  let evs :=
    drop (length (@nil tcall))
      (snd (main 5 quick_trainer (Some "sac_town04") (Some true) "Town04" 10 160 80
              None None (Some ["rgb"]) false None 7 "continuous" [])) in
  tally is_reset evs = 10 ∧
  tally is_step evs = tally is_predict evs ∧
  tally is_render evs = tally is_step evs ∧
  tally is_print_reward evs = tally is_render evs ∧
  10 ≤ tally is_step evs.
Proof.
  apply (main_runs_ten_episodes 5 quick_trainer (Some "sac_town04") (Some true)
           "Town04" 10 160 80 None None (Some ["rgb"]) false None 7 "continuous" []).
  - by vm_compute.
  - reflexivity.
Defined.

Lemma main_closes_envs_witness :
  let built :=
    build_calls "Town04" 10 160 80 None None (Some ["rgb"]) false None "continuous" in
  let body :=
    main_try 5 failing_close_trainer (Some "sac_town04") (Some true) 7 ([] ++ built) in
  main 5 failing_close_trainer (Some "sac_town04") (Some true) "Town04" 10 160 80
    None None (Some ["rgb"]) false None 7 "continuous" []
  = match call_fault failing_close_trainer (snd body ++ [env_close Env]) with
    | Some e => (Raise e, snd body ++ [env_close Env])
    | None =>
        match call_fault failing_close_trainer
                (snd body ++ [env_close Env; env_close TestEnv]) with
        | Some e => (Raise e, snd body ++ [env_close Env; env_close TestEnv])
        | None => (fst body, snd body ++ [env_close Env; env_close TestEnv])
        end
    end
  ∧ Forall (λ c, is_close c = false) (drop (length (@nil tcall)) (snd body)).
Proof.
  intros built body.
  apply (main_closes_envs 5 failing_close_trainer (Some "sac_town04") (Some true)
           "Town04" 10 160 80 None None (Some ["rgb"]) false None 7 "continuous" []
           (fst body) (snd body)).
  - by vm_compute.
  - apply surjective_pairing.
  - by vm_compute.
Defined.

Lemma main_build_failure_closes_nothing_witness :
  fst (main 5 no_test_env_trainer None None "Town04" 10 160 80 None None None
         true None 7 "continuous" []) = Raise (RuntimeError "no simulator") ∧
  Forall (λ c, is_close c = false)
    (drop (length (@nil tcall))
       (snd (main 5 no_test_env_trainer None None "Town04" 10 160 80 None None
               None true None 7 "continuous" []))).
Proof.
  apply (main_build_failure_closes_nothing 5 no_test_env_trainer None None
           "Town04" 10 160 80 None None None true None 7 "continuous" []
           (RuntimeError "no simulator")).
  by vm_compute.
Defined.
